(** * MAX30102 simulator: the I2C protocol simulator and the device model

    A shallow embedding of [src/protocols/i2c_simulator.py]
    (class [I2CProtocolSimulator]) and of the sample-rate decode of
    [src/simulator/max30102_device.py] (class [MAX30102Device]).

    Python integers are unbounded, so values are [Z]; [>>], [&], [|], [~],
    [//] and [%] are [Z.shiftr], [Z.land], [Z.lor], [Z.lnot], [Z.div] and
    [Z.modulo] (floor division, two's complement), which agree with Python
    on negative numbers too.  The register dictionary is a [gmap Z Z]; the
    FIFO is a list of 6-element lists.  A method that can raise is a
    computation in a state-and-exception monad in which the state survives
    a raise, as object mutation does in Python. *)

From Stdlib Require Import ZArith QArith Lia.
From stdpp Require Import base option list gmap.

#[local] Open Scope Z_scope.

(** ** The register map

    [config/register_map.py] is imported with [from ... import *] by both
    classes.  Its names are the fields of this class; the code below is
    written against the class and never looks at a concrete value. *)

Class RegisterMap := {
  REG_INTR_STATUS_1 : Z;
  REG_FIFO_WR_PTR : Z;
  REG_OVF_COUNTER : Z;
  REG_FIFO_RD_PTR : Z;
  REG_FIFO_DATA : Z;
  REG_FIFO_CONFIG : Z;
  REG_MODE_CONFIG : Z;
  REG_SPO2_CONFIG : Z;
  MODE_SPO2 : Z;
  SPO2_SR_50 : Z;
  SPO2_SR_100 : Z;
  SPO2_SR_200 : Z;
  SPO2_SR_400 : Z;
  SPO2_SR_800 : Z;
  SPO2_SR_1000 : Z;
  SPO2_SR_1600 : Z;
  SPO2_SR_3200 : Z;
  DEFAULT_REGISTER_VALUES : gmap Z Z
}.

(** ** Python helpers *)

(** A dict display [{k1: v1, k2: v2, ...}]: a later duplicate key wins. *)
Definition py_dict (items : list (Z * Z)) : gmap Z Z :=
  foldl (fun m kv => <[kv.1 := kv.2]> m) ∅ items.

(** [d.get(k, dflt)] *)
Definition dict_get (d : gmap Z Z) (k dflt : Z) : Z :=
  match d !! k with
  | Some v => v
  | None => dflt
  end.

(** [k in d] *)
Definition dict_in (k : Z) (d : gmap Z Z) : bool :=
  match d !! k with
  | Some _ => true
  | None => false
  end.

(** [l[i]], with Python's negative indices; [None] stands for IndexError. *)
Definition py_getitem {A : Type} (l : list A) (i : Z) : option A :=
  if i <? 0 then
    if Z.of_nat (length l) + i <? 0 then None
    else l !! Z.to_nat (Z.of_nat (length l) + i)
  else l !! Z.to_nat i.

(** [bool(n)] for an integer *)
Definition py_bool (n : Z) : bool := negb (n =? 0).

(** ** The simulator object *)

Record I2CProtocolSimulator := mkI2C {
  device_address : Z;
  registers : gmap Z Z;
  fifo_buffer : list (list Z);
  i2c_bus_available : bool;
  communication_delay : Q;
  read_operations : Z;
  write_operations : Z;
  errors : Z;
  (* the three attributes below do not exist until a handler assigns them
     ([get_device_status] reads them with [getattr(..., default)]) *)
  sample_rate : option Z;
  averaging_samples : option Z;
  fifo_rollover : option bool
}.

(** [self.fifo_size = 32] is assigned in [__init__] and nowhere else. *)
Definition fifo_size : Z := 32.

Definition with_registers (r : gmap Z Z) (s : I2CProtocolSimulator) :=
  mkI2C (device_address s) r (fifo_buffer s) (i2c_bus_available s)
        (communication_delay s) (read_operations s) (write_operations s)
        (errors s) (sample_rate s) (averaging_samples s) (fifo_rollover s).

Definition with_fifo_buffer (b : list (list Z)) (s : I2CProtocolSimulator) :=
  mkI2C (device_address s) (registers s) b (i2c_bus_available s)
        (communication_delay s) (read_operations s) (write_operations s)
        (errors s) (sample_rate s) (averaging_samples s) (fifo_rollover s).

Definition with_bus_available (b : bool) (s : I2CProtocolSimulator) :=
  mkI2C (device_address s) (registers s) (fifo_buffer s) b
        (communication_delay s) (read_operations s) (write_operations s)
        (errors s) (sample_rate s) (averaging_samples s) (fifo_rollover s).

Definition with_communication_delay (d : Q) (s : I2CProtocolSimulator) :=
  mkI2C (device_address s) (registers s) (fifo_buffer s) (i2c_bus_available s)
        d (read_operations s) (write_operations s)
        (errors s) (sample_rate s) (averaging_samples s) (fifo_rollover s).

Definition with_read_operations (n : Z) (s : I2CProtocolSimulator) :=
  mkI2C (device_address s) (registers s) (fifo_buffer s) (i2c_bus_available s)
        (communication_delay s) n (write_operations s)
        (errors s) (sample_rate s) (averaging_samples s) (fifo_rollover s).

Definition with_write_operations (n : Z) (s : I2CProtocolSimulator) :=
  mkI2C (device_address s) (registers s) (fifo_buffer s) (i2c_bus_available s)
        (communication_delay s) (read_operations s) n
        (errors s) (sample_rate s) (averaging_samples s) (fifo_rollover s).

Definition with_errors (n : Z) (s : I2CProtocolSimulator) :=
  mkI2C (device_address s) (registers s) (fifo_buffer s) (i2c_bus_available s)
        (communication_delay s) (read_operations s) (write_operations s)
        n (sample_rate s) (averaging_samples s) (fifo_rollover s).

Definition with_sample_rate (r : option Z) (s : I2CProtocolSimulator) :=
  mkI2C (device_address s) (registers s) (fifo_buffer s) (i2c_bus_available s)
        (communication_delay s) (read_operations s) (write_operations s)
        (errors s) r (averaging_samples s) (fifo_rollover s).

Definition with_averaging_samples (a : option Z) (s : I2CProtocolSimulator) :=
  mkI2C (device_address s) (registers s) (fifo_buffer s) (i2c_bus_available s)
        (communication_delay s) (read_operations s) (write_operations s)
        (errors s) (sample_rate s) a (fifo_rollover s).

Definition with_fifo_rollover (r : option bool) (s : I2CProtocolSimulator) :=
  mkI2C (device_address s) (registers s) (fifo_buffer s) (i2c_bus_available s)
        (communication_delay s) (read_operations s) (write_operations s)
        (errors s) (sample_rate s) (averaging_samples s) r.

(** ** State and exceptions *)

Inductive exn := KeyError | IndexError | ValueError | OverflowError.

Inductive outcome (A : Type) :=
| Ret (a : A)
| Raise (e : exn).
Arguments Ret {A} a.
Arguments Raise {A} e.

Definition M (A : Type) : Type :=
  I2CProtocolSimulator -> outcome A * I2CProtocolSimulator.

#[global] Instance M_ret : MRet M := fun A a s => (Ret a, s).

#[global] Instance M_bind : MBind M := fun A B k m s =>
  match m s with
  | (Ret a, s') => k a s'
  | (Raise e, s') => (Raise e, s')
  end.

Definition raise {A : Type} (e : exn) : M A := fun s => (Raise e, s).
Definition gets {A : Type} (f : I2CProtocolSimulator -> A) : M A :=
  fun s => (Ret (f s), s).
Definition modify (f : I2CProtocolSimulator -> I2CProtocolSimulator) : M unit :=
  fun s => (Ret tt, f s).

(** [self.registers[k]] as an expression: KeyError when [k] is absent *)
Definition get_reg (k : Z) : M Z := fun s =>
  match registers s !! k with
  | Some v => (Ret v, s)
  | None => (Raise KeyError, s)
  end.

(** [self.registers[k] = v]: creates the cell when [k] is absent *)
Definition set_reg (k v : Z) : M unit :=
  modify (fun s => with_registers (<[k := v]> (registers s)) s).

(** [l[i]] inside a method *)
Definition index {A : Type} (l : list A) (i : Z) : M A :=
  match py_getitem l i with
  | Some x => mret x
  | None => raise IndexError
  end.

(** A finite float is modelled by the rational it denotes.

    [int] to [float], as [x * n] does for a float [x] and an int [n]: an
    integer that rounds to 2^1024 or beyond raises OverflowError. *)
Definition float_int_limit : Z := 2 ^ 1024 - 2 ^ 970.

(** [x * n] for a float [x] and an int [n]; the product of the two floats
    is taken exactly. *)
Definition float_mul_int (x : Q) (n : Z) : M Q :=
  if float_int_limit <=? Z.abs n then raise OverflowError
  else mret (x * inject_Z n)%Q.

(** Whether a number of seconds, converted to nanoseconds, fits a signed
    integer of 64 bits. *)
Definition fits_nanoseconds (secs : Q) : bool :=
  Qle_bool (inject_Z (- 2 ^ 63)) (secs * inject_Z (10 ^ 9))
  && Qle_bool (secs * inject_Z (10 ^ 9)) (inject_Z (2 ^ 63 - 1)).

(** [time.sleep(secs)]: no effect on the object.  The argument is first
    converted to a number of nanoseconds held in 64 bits, which raises
    OverflowError when it does not fit; a negative argument then raises
    ValueError. *)
Definition time_sleep (secs : Q) : M unit :=
  if fits_nanoseconds secs then
    if Qle_bool 0 secs then mret tt else raise ValueError
  else raise OverflowError.

(** A number of whole seconds that fits [time.sleep], with room for the
    rounding of a product of floats. *)
Definition sleep_max : Q := inject_Z 9223372036.

(** A [for] loop over [l] whose body updates the local variable [acc]. *)
Fixpoint for_each {A B : Type} (l : list A) (acc : B) (body : B -> A -> M B)
  : M B :=
  match l with
  | [] => mret acc
  | x :: l' => acc' ← body acc x; for_each l' acc' body
  end.

(** [try: body / except Exception: self.errors += 1; return failure] *)
Definition try_except {A : Type} (body : M A) (failure : A)
  : I2CProtocolSimulator -> A * I2CProtocolSimulator := fun s =>
  match body s with
  | (Ret a, s') => (a, s')
  | (Raise _, s') => (failure, with_errors (errors s' + 1) s')
  end.

(** ** The methods of [I2CProtocolSimulator] *)

Section Simulator.
Context `{RM : RegisterMap}.

(** [_initialize_device] *)
Definition _initialize_device : M unit :=
  modify (with_fifo_buffer []);;
  set_reg REG_MODE_CONFIG MODE_SPO2;;
  set_reg REG_SPO2_CONFIG 0x27.

(** The object as [__init__] leaves it just before [_initialize_device]. *)
Definition fresh (addr : Z) : I2CProtocolSimulator :=
  {| device_address := addr;
     registers := DEFAULT_REGISTER_VALUES;
     fifo_buffer := [];
     i2c_bus_available := true;
     communication_delay := 1 # 1000;
     read_operations := 0;
     write_operations := 0;
     errors := 0;
     sample_rate := None;
     averaging_samples := None;
     fifo_rollover := None |}.

(** [I2CProtocolSimulator(device_address)] *)
Definition new (addr : Z) : I2CProtocolSimulator :=
  (_initialize_device (fresh addr)).2.

(** [_handle_device_reset] *)
Definition _handle_device_reset : M unit :=
  modify (with_registers DEFAULT_REGISTER_VALUES);;
  modify (with_fifo_buffer []);;
  modify (with_read_operations 0);;
  modify (with_write_operations 0);;
  modify (with_errors 0).

(** [_handle_mode_config_write]; the two logging branches on the shutdown
    bit have no effect on the object. *)
Definition _handle_mode_config_write (value : Z) : M unit :=
  if py_bool (Z.land value 0x40) then _handle_device_reset
  else set_reg REG_MODE_CONFIG (Z.land value 0x8F).

Definition averaging_map : gmap Z Z :=
  py_dict [(0, 1); (1, 2); (2, 4); (3, 8); (4, 16); (5, 32)].

(** [_handle_fifo_config_write] *)
Definition _handle_fifo_config_write (value : Z) : M unit :=
  set_reg REG_FIFO_CONFIG (Z.land value 0xFF);;
  let average_bits := Z.land (Z.shiftr value 5) 0x07 in
  modify (with_averaging_samples (Some (dict_get averaging_map average_bits 1)));;
  modify (with_fifo_rollover (Some (py_bool (Z.land value 0x10)))).

(** The dictionary [sample_rates], built alike in [_handle_spo2_config_write]
    and in [MAX30102Device.get_sample_rate]. *)
Definition sample_rates : gmap Z Z :=
  py_dict [(SPO2_SR_50, 50); (SPO2_SR_100, 100); (SPO2_SR_200, 200);
           (SPO2_SR_400, 400); (SPO2_SR_800, 800); (SPO2_SR_1000, 1000);
           (SPO2_SR_1600, 1600); (SPO2_SR_3200, 3200)].

(** [_handle_spo2_config_write] *)
Definition _handle_spo2_config_write (value : Z) : M unit :=
  set_reg REG_SPO2_CONFIG (Z.land value 0xFC);;
  let sr_bits := Z.land (Z.shiftr value 2) 0x07 in
  modify (with_sample_rate (Some (dict_get sample_rates sr_bits 100))).

(** [_handle_fifo_write_pointer] *)
Definition _handle_fifo_write_pointer (value : Z) : M unit :=
  set_reg REG_FIFO_WR_PTR (value mod (fifo_size * 6)).

(** [_handle_fifo_read_pointer] *)
Definition _handle_fifo_read_pointer (value : Z) : M unit :=
  set_reg REG_FIFO_RD_PTR (value mod (fifo_size * 6)).

(** [_handle_fifo_data_read].  [and] is short-circuit: the overflow counter
    is looked up only when the two pointers are equal. *)
Definition _handle_fifo_data_read : M Z :=
  buf ← gets fifo_buffer;
  match buf with
  | [] => mret 0x00
  | _ :: _ =>
    rd_ptr ← get_reg REG_FIFO_RD_PTR;
    wr_ptr ← get_reg REG_FIFO_WR_PTR;
    is_empty ← (if rd_ptr =? wr_ptr
                then ovf ← get_reg REG_OVF_COUNTER; mret (ovf =? 0)
                else mret false);
    if is_empty : bool then mret 0x00
    else
      let sample_index := (rd_ptr / 6) mod fifo_size in
      let byte_index := rd_ptr mod 6 in
      if sample_index <? Z.of_nat (length buf) then
        sample ← index buf sample_index;
        value ← index sample byte_index;
        set_reg REG_FIFO_RD_PTR ((rd_ptr + 1) mod (fifo_size * 6));;
        mret value
      else mret 0x00
  end.

(** [_handle_interrupt_status_read] *)
Definition _handle_interrupt_status_read : M Z :=
  value ← get_reg REG_INTR_STATUS_1;
  set_reg REG_INTR_STATUS_1 0x00;;
  mret value.

(** [_update_fifo_pointers] *)
Definition _update_fifo_pointers : M unit :=
  buf ← gets fifo_buffer;
  let samples_in_fifo := Z.of_nat (length buf) in
  set_reg REG_FIFO_WR_PTR ((samples_in_fifo * 6) mod (fifo_size * 6));;
  cfg ← get_reg REG_FIFO_CONFIG;
  let fifo_almost_full_level := Z.land cfg 0x0F in
  if fifo_almost_full_level <=? samples_in_fifo then
    st ← get_reg REG_INTR_STATUS_1;
    set_reg REG_INTR_STATUS_1 (Z.lor st 0x10)
  else
    st ← get_reg REG_INTR_STATUS_1;
    set_reg REG_INTR_STATUS_1 (Z.land st (Z.lnot 0x10)).

(** The 6-byte record built at the top of [push_sample_to_fifo]. *)
Definition sample_bytes (sample : Z) : list Z :=
  [Z.land (Z.shiftr sample 16) 0x03;
   Z.land (Z.shiftr sample 8) 0xFF;
   Z.land sample 0xFF].

Definition pack_sample (red_sample ir_sample : Z) : list Z :=
  sample_bytes red_sample ++ sample_bytes ir_sample.

(** [push_sample_to_fifo]; it has no [try], so a raise escapes. *)
Definition push_sample_to_fifo (red_sample ir_sample : Z) : M unit :=
  let sample_data := pack_sample red_sample ir_sample in
  buf ← gets fifo_buffer;
  (if fifo_size <=? Z.of_nat (length buf) then
     ovf ← get_reg REG_OVF_COUNTER;
     set_reg REG_OVF_COUNTER (Z.land (ovf + 1) 0x1F);;
     match buf with
     | [] => mret tt
     | _ :: rest => modify (with_fifo_buffer rest)
     end
   else mret tt);;
  modify (fun s => with_fifo_buffer (fifo_buffer s ++ [sample_data]) s);;
  _update_fifo_pointers;;
  buf' ← gets fifo_buffer;
  if 0 <? Z.of_nat (length buf') then
    st ← get_reg REG_INTR_STATUS_1;
    set_reg REG_INTR_STATUS_1 (Z.lor st 0x10)
  else mret tt.

(** The expression that turns three stored bytes back into a sample. *)
Definition join_bytes (b0 b1 b2 : Z) : Z :=
  Z.lor (Z.lor (Z.shiftl b0 16) (Z.shiftl b1 8)) b2.

(** The body of the loop of [read_fifo_samples]. *)
Definition read_fifo_step (samples : list (Z * Z)) (_ : Z) : M (list (Z * Z)) :=
  buf ← gets fifo_buffer;
  match buf with
  | [] => mret samples
  | sample_data :: rest =>
    modify (with_fifo_buffer rest);;
    r0 ← index sample_data 0;
    r1 ← index sample_data 1;
    r2 ← index sample_data 2;
    i0 ← index sample_data 3;
    i1 ← index sample_data 4;
    i2 ← index sample_data 5;
    mret (samples ++ [(join_bytes r0 r1 r2, join_bytes i0 i1 i2)])
  end.

(** [read_fifo_samples]; the bound of [range] is computed once, before the
    first iteration. *)
Definition read_fifo_samples (sample_count : Z) : M (list (Z * Z)) :=
  buf ← gets fifo_buffer;
  let n := Z.min sample_count (Z.of_nat (length buf)) in
  samples ← for_each (seqZ 0 n) [] read_fifo_step;
  _update_fifo_pointers;;
  mret samples.

(** [write_register] *)
Definition write_register (register value : Z)
  : I2CProtocolSimulator -> bool * I2CProtocolSimulator := fun s =>
  if negb (i2c_bus_available s) then (false, with_errors (errors s + 1) s)
  else if negb (dict_in register (registers s)) then
    (false, with_errors (errors s + 1) s)
  else
    try_except
      (delay ← gets communication_delay;
       time_sleep delay;;
       (if register =? REG_MODE_CONFIG then _handle_mode_config_write value
        else if register =? REG_FIFO_CONFIG then _handle_fifo_config_write value
        else if register =? REG_FIFO_WR_PTR then _handle_fifo_write_pointer value
        else if register =? REG_FIFO_RD_PTR then _handle_fifo_read_pointer value
        else if register =? REG_SPO2_CONFIG then _handle_spo2_config_write value
        else set_reg register (Z.land value 0xFF));;
       modify (fun s => with_write_operations (write_operations s + 1) s);;
       mret true)
      false s.

(** [read_register]; [None] is Python's [None]. *)
Definition read_register (register : Z)
  : I2CProtocolSimulator -> option Z * I2CProtocolSimulator := fun s =>
  if negb (i2c_bus_available s) then (None, with_errors (errors s + 1) s)
  else if negb (dict_in register (registers s)) then
    (None, with_errors (errors s + 1) s)
  else
    try_except
      (delay ← gets communication_delay;
       time_sleep delay;;
       value ← get_reg register;
       value ← (if register =? REG_FIFO_DATA then _handle_fifo_data_read
                else if register =? REG_INTR_STATUS_1
                     then _handle_interrupt_status_read
                else mret value);
       modify (fun s => with_read_operations (read_operations s + 1) s);;
       mret (Some value))
      None s.

(** The body of the loop of [read_registers_burst]. *)
Definition burst_read_step (start_register : Z) (values : list Z) (i : Z)
  : M (list Z) :=
  let register := start_register + i in
  regs ← gets registers;
  if dict_in register regs then
    value ← get_reg register;
    value ← (if register =? REG_FIFO_DATA then _handle_fifo_data_read
             else mret value);
    mret (values ++ [value])
  else mret (values ++ [0x00]).

(** [read_registers_burst] *)
Definition read_registers_burst (start_register count : Z)
  : I2CProtocolSimulator -> option (list Z) * I2CProtocolSimulator := fun s =>
  if negb (i2c_bus_available s) then (None, with_errors (errors s + 1) s)
  else
    try_except
      (delay ← gets communication_delay;
       secs ← float_mul_int delay count;
       time_sleep secs;;
       values ← for_each (seqZ 0 count) [] (burst_read_step start_register);
       modify (fun s => with_read_operations (read_operations s + 1) s);;
       mret (Some values))
      None s.

(** The body of the loop of [write_registers_burst]; [iv] is the pair that
    [enumerate] yields. *)
Definition burst_write_step (start_register : Z) (_ : unit) (iv : Z * Z)
  : M unit :=
  let register := start_register + iv.1 in
  let value := iv.2 in
  regs ← gets registers;
  if dict_in register regs then
    set_reg register (Z.land value 0xFF);;
    if register =? REG_MODE_CONFIG then _handle_mode_config_write value
    else if register =? REG_FIFO_CONFIG then _handle_fifo_config_write value
    else mret tt
  else mret tt.

(** [enumerate(values)] *)
Definition enumerate (values : list Z) : list (Z * Z) :=
  zip (seqZ 0 (Z.of_nat (length values))) values.

(** [write_registers_burst] *)
Definition write_registers_burst (start_register : Z) (values : list Z)
  : I2CProtocolSimulator -> bool * I2CProtocolSimulator := fun s =>
  if negb (i2c_bus_available s) then (false, with_errors (errors s + 1) s)
  else
    try_except
      (delay ← gets communication_delay;
       secs ← float_mul_int delay (Z.of_nat (length values));
       time_sleep secs;;
       for_each (enumerate values) tt (burst_write_step start_register);;
       modify (fun s => with_write_operations (write_operations s + 1) s);;
       mret true)
      false s.

(** The fields of the dictionary that [get_device_status] returns; the
    device address is left a number (the source formats it in hex). *)
Record device_status := {
  status_device_address : Z;
  status_fifo_samples : Z;
  status_sample_rate : Z;
  status_averaging_samples : Z;
  status_fifo_rollover : bool;
  status_read_operations : Z;
  status_write_operations : Z;
  status_error_count : Z;
  status_operating_mode : Z;
  status_power_state_shutdown : bool
}.

(** [get_device_status] *)
Definition get_device_status : M device_status :=
  s ← gets id;
  mode ← get_reg REG_MODE_CONFIG;
  mode' ← get_reg REG_MODE_CONFIG;
  mret {| status_device_address := device_address s;
          status_fifo_samples := Z.of_nat (length (fifo_buffer s));
          status_sample_rate := default 100 (sample_rate s);
          status_averaging_samples := default 1 (averaging_samples s);
          status_fifo_rollover := default true (fifo_rollover s);
          status_read_operations := read_operations s;
          status_write_operations := write_operations s;
          status_error_count := errors s;
          status_operating_mode := Z.land mode 0x07;
          status_power_state_shutdown := py_bool (Z.land mode' 0x80) |}.

(** [set_communication_delay]; [max(0.0, delay)] is [delay] when
    [delay > 0.0] and [0.0] otherwise. *)
Definition set_communication_delay (delay : Q) : M unit :=
  modify (with_communication_delay (if Qle_bool delay 0 then 0%Q else delay)).

(** [set_bus_availability] *)
Definition set_bus_availability (available : bool) : M unit :=
  modify (with_bus_available available).

(** ** [MAX30102Device.get_sample_rate]

    The method reads only [self.registers]; the result is the value
    returned, or the exception raised by the dictionary lookup. *)
Definition get_sample_rate (device_registers : gmap Z Z) : outcome Z :=
  match device_registers !! REG_SPO2_CONFIG with
  | None => Raise KeyError
  | Some spo2_config =>
    let sr_bits := Z.land (Z.shiftr spo2_config 2) 0x07 in
    Ret (dict_get sample_rates sr_bits 100)
  end.

End Simulator.

(** ** A register map to run the code on *)

Module Chip.

(** Modelled from the spec: [DEFAULT_REGISTER_VALUES] of
    [config/register_map.py], which is not among the sources.  Spec
    section 6 says only that the registers have fixed well-known 8-bit
    addresses; the keys below are the MAX30102's register addresses, every
    default is 0 except the mode register (0x09), the revision (0xFE) and
    the part identifier (0xFF), whose values are those that
    [tests/test_max30102_device.py] expects.  The table serves only to
    evaluate the code on concrete inputs. *)
Definition default_table : gmap Z Z :=
  py_dict [(0x00, 0x00); (0x01, 0x00); (0x02, 0x00); (0x03, 0x00);
           (0x04, 0x00); (0x05, 0x00); (0x06, 0x00); (0x07, 0x00);
           (0x08, 0x00); (0x09, 0x03); (0x0A, 0x00); (0x0C, 0x00);
           (0x0D, 0x00); (0x10, 0x00); (0x11, 0x00); (0x12, 0x00);
           (0x1F, 0x00); (0x20, 0x00); (0x21, 0x00);
           (0xFE, 0x02); (0xFF, 0x15)].

(** Modelled from the spec: the names of [config/register_map.py], which
    is not among the sources, with the MAX30102's addresses (interrupt
    status 0x00, FIFO write pointer 0x04, overflow counter 0x05, FIFO read
    pointer 0x06, FIFO data 0x07, FIFO config 0x08, mode config 0x09, SpO2
    config 0x0A) and its sample-rate codes 0 to 7. *)
#[export] Instance register_map : RegisterMap := {|
  REG_INTR_STATUS_1 := 0x00;
  REG_FIFO_WR_PTR := 0x04;
  REG_OVF_COUNTER := 0x05;
  REG_FIFO_RD_PTR := 0x06;
  REG_FIFO_DATA := 0x07;
  REG_FIFO_CONFIG := 0x08;
  REG_MODE_CONFIG := 0x09;
  REG_SPO2_CONFIG := 0x0A;
  MODE_SPO2 := 0x03;
  SPO2_SR_50 := 0;
  SPO2_SR_100 := 1;
  SPO2_SR_200 := 2;
  SPO2_SR_400 := 3;
  SPO2_SR_800 := 4;
  SPO2_SR_1000 := 5;
  SPO2_SR_1600 := 6;
  SPO2_SR_3200 := 7;
  DEFAULT_REGISTER_VALUES := default_table
|}.

(** Modelled from the spec: the two LED amplitude registers that the
    tests write, at the MAX30102's addresses. *)
Definition REG_LED1_PA : Z := 0x0C.
Definition REG_LED2_PA : Z := 0x0D.

(** [I2CProtocolSimulator()] *)
Definition i2c : I2CProtocolSimulator := new 0x57.

End Chip.

(** ** Assumptions on the register map, and the state invariant *)

Section Invariant.
Context `{RM : RegisterMap}.

(** The registers that the methods name. *)
Definition named_registers : list Z :=
  [REG_INTR_STATUS_1; REG_FIFO_WR_PTR; REG_OVF_COUNTER; REG_FIFO_RD_PTR;
   REG_FIFO_DATA; REG_FIFO_CONFIG; REG_MODE_CONFIG; REG_SPO2_CONFIG].


(** What the proofs ask of [register_map.py]: the named registers are
    different addresses, and each is a key of the default table. *)
Record RegisterMapOK : Prop := {
  named_distinct : NoDup named_registers;
  named_known : Forall (fun r => r ∈ dom DEFAULT_REGISTER_VALUES) named_registers
}.

(** The known register set: the keys of the default table. *)
Definition known (register : Z) : Prop :=
  register ∈ dom DEFAULT_REGISTER_VALUES.

(** The invariant of the object. *)
Record wf (s : I2CProtocolSimulator) : Prop := {
  wf_dom : dom (registers s) = dom DEFAULT_REGISTER_VALUES;
  wf_records : Forall (fun r => length r = 6%nat) (fifo_buffer s);
  wf_length : Z.of_nat (length (fifo_buffer s)) <= fifo_size;
  wf_delay : (0 <= communication_delay s)%Q
}.

(** A client's call on the object. *)
Inductive call :=
| CallWriteRegister (register value : Z)
| CallReadRegister (register : Z)
| CallReadRegistersBurst (start_register count : Z)
| CallWriteRegistersBurst (start_register : Z) (values : list Z)
| CallPushSampleToFifo (red_sample ir_sample : Z)
| CallReadFifoSamples (sample_count : Z)
| CallGetDeviceStatus
| CallSetCommunicationDelay (delay : Q)
| CallSetBusAvailability (available : bool).

(** The object after a call, whether the call returned or raised. *)
Definition after (c : call) (s : I2CProtocolSimulator) : I2CProtocolSimulator :=
  match c with
  | CallWriteRegister r v => (write_register r v s).2
  | CallReadRegister r => (read_register r s).2
  | CallReadRegistersBurst r n => (read_registers_burst r n s).2
  | CallWriteRegistersBurst r vs => (write_registers_burst r vs s).2
  | CallPushSampleToFifo red ir => (push_sample_to_fifo red ir s).2
  | CallReadFifoSamples n => (read_fifo_samples n s).2
  | CallGetDeviceStatus => (get_device_status s).2
  | CallSetCommunicationDelay d => (set_communication_delay d s).2
  | CallSetBusAvailability b => (set_bus_availability b s).2
  end.

(** The states a constructed object can be in. *)
Inductive reachable : I2CProtocolSimulator -> Prop :=
| reachable_new (addr : Z) : reachable (new addr)
| reachable_after (c : call) (s : I2CProtocolSimulator) :
    reachable s -> reachable (after c s).

(** What [read_fifo_samples] makes of one stored record. *)
Definition unpack_sample (sample_data : list Z) : Z * Z :=
  (join_bytes (sample_data !!! 0%nat) (sample_data !!! 1%nat) (sample_data !!! 2%nat),
   join_bytes (sample_data !!! 3%nat) (sample_data !!! 4%nat) (sample_data !!! 5%nat)).

(** [for red, ir in records: push_sample_to_fifo(red, ir)] *)
Definition push_all (records : list (Z * Z)) : M unit :=
  for_each records tt (fun _ r => push_sample_to_fifo r.1 r.2).

(** The last [n] elements of a list. *)
Definition last_n {A : Type} (n : nat) (l : list A) : list A :=
  drop (length l - n) l.

End Invariant.

(** ** What a single write leaves in a cell *)

Section Stored.
Context `{RM : RegisterMap}.


End Stored.

(** ** The device model: [MAX30102Device]

    A shallow embedding of the class of [src/simulator/max30102_device.py].
    The logger is not part of the state; [temperature] is the constant
    37.0 that [__init__] assigns. *)

Module Device.

Record MAX30102Device := mkDevice {
  registers : gmap Z Z;
  fifo_buffer : list (list Z);
  sample_count : Z;
  temperature : Q;
  power_on : bool;
  reset_pending : bool;
  (* the two attributes below do not exist until [_update_fifo_config]
     assigns them *)
  averaging : option Z;
  fifo_rollover : option bool
}.

Definition with_registers (r : gmap Z Z) (d : MAX30102Device) :=
  mkDevice r (fifo_buffer d) (sample_count d) (temperature d) (power_on d)
           (reset_pending d) (averaging d) (fifo_rollover d).

Definition with_fifo_buffer (b : list (list Z)) (d : MAX30102Device) :=
  mkDevice (registers d) b (sample_count d) (temperature d) (power_on d)
           (reset_pending d) (averaging d) (fifo_rollover d).

Definition with_sample_count (n : Z) (d : MAX30102Device) :=
  mkDevice (registers d) (fifo_buffer d) n (temperature d) (power_on d)
           (reset_pending d) (averaging d) (fifo_rollover d).

Definition with_power_on (b : bool) (d : MAX30102Device) :=
  mkDevice (registers d) (fifo_buffer d) (sample_count d) (temperature d) b
           (reset_pending d) (averaging d) (fifo_rollover d).

Definition with_reset_pending (b : bool) (d : MAX30102Device) :=
  mkDevice (registers d) (fifo_buffer d) (sample_count d) (temperature d)
           (power_on d) b (averaging d) (fifo_rollover d).

Definition with_averaging (a : option Z) (d : MAX30102Device) :=
  mkDevice (registers d) (fifo_buffer d) (sample_count d) (temperature d)
           (power_on d) (reset_pending d) a (fifo_rollover d).

Definition with_fifo_rollover (r : option bool) (d : MAX30102Device) :=
  mkDevice (registers d) (fifo_buffer d) (sample_count d) (temperature d)
           (power_on d) (reset_pending d) (averaging d) r.

(** The state-and-exception monad over the device object. *)
Definition D (A : Type) : Type :=
  MAX30102Device -> outcome A * MAX30102Device.

#[global] Instance D_ret : MRet D := fun A a d => (Ret a, d).

#[global] Instance D_bind : MBind D := fun A B k m d =>
  match m d with
  | (Ret a, d') => k a d'
  | (Raise e, d') => (Raise e, d')
  end.

Definition raise {A : Type} (e : exn) : D A := fun d => (Raise e, d).
Definition gets {A : Type} (f : MAX30102Device -> A) : D A :=
  fun d => (Ret (f d), d).
Definition modify (f : MAX30102Device -> MAX30102Device) : D unit :=
  fun d => (Ret tt, f d).

(** [self.registers[k]] as an expression: KeyError when [k] is absent *)
Definition get_reg (k : Z) : D Z := fun d =>
  match registers d !! k with
  | Some v => (Ret v, d)
  | None => (Raise KeyError, d)
  end.

(** [self.registers[k] = v] *)
Definition set_reg (k v : Z) : D unit :=
  modify (fun d => with_registers (<[k := v]> (registers d)) d).

(** [l[i]] inside a method *)
Definition index {A : Type} (l : list A) (i : Z) : D A :=
  match py_getitem l i with
  | Some x => mret x
  | None => raise IndexError
  end.

(** A [for] loop over [l] whose body updates the local variable [acc]. *)
Fixpoint for_each {A B : Type} (l : list A) (acc : B) (body : B -> A -> D B)
  : D B :=
  match l with
  | [] => mret acc
  | x :: l' => acc' ← body acc x; for_each l' acc' body
  end.

Section Methods.
Context `{RM : RegisterMap}.

(** [_update_fifo_pointers] *)
Definition _update_fifo_pointers : D unit :=
  buf ← gets fifo_buffer;
  let samples_in_fifo := Z.of_nat (length buf) in
  set_reg REG_FIFO_WR_PTR ((samples_in_fifo * 6) mod (fifo_size * 6));;
  let available_samples := samples_in_fifo in
  if 0 <? available_samples then
    st ← get_reg REG_INTR_STATUS_1;
    set_reg REG_INTR_STATUS_1 (Z.lor st 0x10)
  else
    st ← get_reg REG_INTR_STATUS_1;
    set_reg REG_INTR_STATUS_1 (Z.land st (Z.lnot 0x10)).

(** [initialize_device] *)
Definition initialize_device : D unit := _update_fifo_pointers.

(** The object as [__init__] leaves it just before [initialize_device]. *)
Definition fresh : MAX30102Device :=
  {| registers := DEFAULT_REGISTER_VALUES;
     fifo_buffer := [];
     sample_count := 0;
     temperature := 37;
     power_on := true;
     reset_pending := false;
     averaging := None;
     fifo_rollover := None |}.

(** [MAX30102Device()]: the outcome of the constructor and the object. *)
Definition new : outcome unit * MAX30102Device := initialize_device fresh.

(** [_update_fifo_config] *)
Definition _update_fifo_config (config : Z) : D unit :=
  let average_bits := Z.land (Z.shiftr config 5) 0x07 in
  modify (with_averaging (Some (dict_get averaging_map average_bits 1)));;
  modify (with_fifo_rollover (Some (py_bool (Z.land config 0x10)))).

(** [_handle_reset] *)
Definition _handle_reset : D unit :=
  modify (with_registers DEFAULT_REGISTER_VALUES);;
  modify (with_fifo_buffer []);;
  modify (with_sample_count 0);;
  _update_fifo_pointers;;
  modify (with_reset_pending true).

(** [write_register].  The first part computes [Some b] where the source
    returns [b] early, and [None] where control falls through to the
    assignment of the cell. *)
Definition write_register (register value : Z) : D bool :=
  if negb (dict_in register DEFAULT_REGISTER_VALUES) then mret false
  else
    early ← (if register =? REG_MODE_CONFIG then
               if py_bool (Z.land value 0x40) then
                 _handle_reset;; mret (Some true)
               else
                 (if py_bool (Z.land value 0x80)
                  then modify (with_power_on
                                 (negb (py_bool (Z.land value 0x80))))
                  else mret tt);;
                 mret None
             else if register =? REG_FIFO_CONFIG then
               _update_fifo_config value;; mret None
             else mret None);
    match early with
    | Some b => mret b
    | None => set_reg register (Z.land value 0xFF);; mret true
    end.

(** [_read_fifo_data] *)
Definition _read_fifo_data : D Z :=
  buf ← gets fifo_buffer;
  match buf with
  | [] => mret 0x00
  | _ :: _ =>
    rd_ptr ← get_reg REG_FIFO_RD_PTR;
    wr_ptr ← get_reg REG_FIFO_WR_PTR;
    is_empty ← (if rd_ptr =? wr_ptr
                then ovf ← get_reg REG_OVF_COUNTER; mret (ovf =? 0)
                else mret false);
    if is_empty : bool then mret 0x00
    else
      let sample_index := (rd_ptr / 6) mod fifo_size in
      let byte_index := rd_ptr mod 6 in
      if sample_index <? Z.of_nat (length buf) then
        sample ← index buf sample_index;
        value ← index sample byte_index;
        set_reg REG_FIFO_RD_PTR ((rd_ptr + 1) mod (fifo_size * 6));;
        mret value
      else mret 0x00
  end.

(** [read_register]; [None] is Python's [None]. *)
Definition read_register (register : Z) : D (option Z) :=
  if register =? REG_FIFO_DATA then
    value ← _read_fifo_data; mret (Some value)
  else
    regs ← gets registers;
    if negb (dict_in register regs) then mret None
    else value ← get_reg register; mret (Some value).

(** The body of the loop of [read_fifo_burst]. *)
Definition read_fifo_burst_step (data : list Z) (_ : Z) : D (list Z) :=
  buf ← gets fifo_buffer;
  match buf with
  | [] => mret data
  | sample :: rest =>
    modify (with_fifo_buffer rest);;
    _update_fifo_pointers;;
    mret (data ++ sample)
  end.

(** [read_fifo_burst]; the bound of [range] is computed once. *)
Definition read_fifo_burst (count : Z) : D (list Z) :=
  buf ← gets fifo_buffer;
  let n := Z.min count (Z.of_nat (length buf)) in
  for_each (seqZ 0 n) [] read_fifo_burst_step.

(** [push_sample_to_fifo] *)
Definition push_sample_to_fifo (red_sample ir_sample : Z) : D unit :=
  buf ← gets fifo_buffer;
  (if fifo_size <=? Z.of_nat (length buf) then
     ovf ← get_reg REG_OVF_COUNTER;
     set_reg REG_OVF_COUNTER (Z.land (ovf + 1) 0x1F);;
     match buf with
     | [] => mret tt
     | _ :: rest => modify (with_fifo_buffer rest)
     end
   else mret tt);;
  let sample_bytes :=
    [Z.land (Z.shiftr red_sample 16) 0x03;
     Z.land (Z.shiftr red_sample 8) 0xFF;
     Z.land red_sample 0xFF;
     Z.land (Z.shiftr ir_sample 16) 0x03;
     Z.land (Z.shiftr ir_sample 8) 0xFF;
     Z.land ir_sample 0xFF] in
  modify (fun d => with_fifo_buffer (fifo_buffer d ++ [sample_bytes]) d);;
  _update_fifo_pointers;;
  modify (fun d => with_sample_count (sample_count d + 1) d).

(** The dictionary that [get_status] returns. *)
Record status := {
  status_power_on : bool;
  status_fifo_samples : Z;
  status_sample_count : Z;
  status_temperature : Q;
  status_mode : Z
}.

(** [get_status] *)
Definition get_status : D status :=
  d ← gets id;
  mode ← get_reg REG_MODE_CONFIG;
  mret {| status_power_on := power_on d;
          status_fifo_samples := Z.of_nat (length (fifo_buffer d));
          status_sample_count := sample_count d;
          status_temperature := temperature d;
          status_mode := Z.land mode 0x07 |}.

(** [get_sample_rate] as a method of the object: the decode defined above,
    applied to [self.registers]. *)
Definition get_sample_rate : D Z :=
  fun d => (get_sample_rate (registers d), d).

(** A client's call on the device. *)
Inductive call :=
| CallWriteRegister (register value : Z)
| CallReadRegister (register : Z)
| CallReadFifoBurst (count : Z)
| CallPushSampleToFifo (red_sample ir_sample : Z)
| CallGetStatus
| CallGetSampleRate.

(** The device after a call, whether the call returned or raised. *)
Definition after (c : call) (d : MAX30102Device) : MAX30102Device :=
  match c with
  | CallWriteRegister r v => (write_register r v d).2
  | CallReadRegister r => (read_register r d).2
  | CallReadFifoBurst n => (read_fifo_burst n d).2
  | CallPushSampleToFifo red ir => (push_sample_to_fifo red ir d).2
  | CallGetStatus => (get_status d).2
  | CallGetSampleRate => (get_sample_rate d).2
  end.

(** The states a constructed device can be in; there is a device only if
    the constructor returned. *)
Inductive reachable : MAX30102Device -> Prop :=
| reachable_new : new.1 = Ret tt -> reachable new.2
| reachable_after (c : call) (d : MAX30102Device) :
    reachable d -> reachable (after c d).

(** The invariant of the device. *)
Record wf (d : MAX30102Device) : Prop := {
  wf_dom : dom (registers d) = dom DEFAULT_REGISTER_VALUES;
  wf_records : Forall (fun r => length r = 6%nat) (fifo_buffer d);
  wf_length : Z.of_nat (length (fifo_buffer d)) <= fifo_size
}.

End Methods.

(** A property of the device that a computation keeps, whether it returns
    or raises. *)
Definition preserves {A : Type} (P : MAX30102Device -> Prop) (m : D A)
  : Prop :=
  forall d, P d -> P (m d).2.

Section Clients.
Context `{RM : RegisterMap}.

(** [for red, ir in records: device.push_sample_to_fifo(red, ir)] *)
Definition push_all (records : list (Z * Z)) : D unit :=
  for_each records tt (fun _ r => push_sample_to_fifo r.1 r.2).

(** The device after a sequence of calls. *)
Definition after_all (calls : list call) (d : MAX30102Device)
  : MAX30102Device :=
  foldl (fun d c => after c d) d calls.

End Clients.

End Device.

(** ** Facts about the contents of the simulator *)

(** Every cell of a register dictionary holds a byte. *)
Definition byte_cells (m : gmap Z Z) : Prop :=
  forall k v, m !! k = Some v -> 0 <= v <= 255.

(** The registers of the simulator hold bytes. *)
Definition holds_bytes (s : I2CProtocolSimulator) : Prop :=
  byte_cells (registers s).

(** Every record of a FIFO is what [push_sample_to_fifo] stores for some
    pair of samples. *)
Definition packed_records (l : list (list Z)) : Prop :=
  Forall (fun r => exists red_sample ir_sample,
                     r = pack_sample red_sample ir_sample) l.

(** ** A client loop over the FIFO-data register *)

Section ByteReads.
Context `{RM : RegisterMap}.


End ByteReads.

(** A property of the object that a computation keeps, whether it returns
    or raises. *)
Definition preserves {A : Type} (P : I2CProtocolSimulator -> Prop) (m : M A)
  : Prop :=
  forall s, P s -> P (m s).2.

(** * Proofs *)

(** Statements proved inside a section hold for every register map; the
    closed examples between the sections run on the chip's map. *)
Import Chip.

(** ** Running computations *)

Lemma bind_run {A B : Type} (m : M A) (k : A -> M B) (s : I2CProtocolSimulator) :
  (m ≫= k) s =
  match m s with
  | (Ret a, s') => k a s'
  | (Raise e, s') => (Raise e, s')
  end.
Proof. reflexivity. Qed.

Lemma bind_ret {A B : Type} (m : M A) (k : A -> M B) s a s' :
  m s = (Ret a, s') -> (m ≫= k) s = k a s'.
Proof. intros E. rewrite bind_run, E. reflexivity. Qed.

Lemma bind_raise {A B : Type} (m : M A) (k : A -> M B) s e s' :
  m s = (Raise e, s') -> (m ≫= k) s = (Raise e, s').
Proof. intros E. rewrite bind_run, E. reflexivity. Qed.

Lemma get_reg_Some (k v : Z) s :
  registers s !! k = Some v -> get_reg k s = (Ret v, s).
Proof. intros E. unfold get_reg. rewrite E. reflexivity. Qed.

Lemma with_registers_twice r1 r2 s :
  with_registers r2 (with_registers r1 s) = with_registers r2 s.
Proof. reflexivity. Qed.

Lemma with_registers_same s : with_registers (registers s) s = s.
Proof. destruct s; reflexivity. Qed.

Lemma dict_in_true (k : Z) (d : gmap Z Z) : dict_in k d = true <-> k ∈ dom d.
Proof.
  unfold dict_in. rewrite elem_of_dom.
  destruct (d !! k) as [v|]; split; intros H;
    first [done | by exists v | by destruct H].
Qed.

Lemma dict_in_false (k : Z) (d : gmap Z Z) : dict_in k d = false <-> k ∉ dom d.
Proof.
  rewrite <- dict_in_true. destruct (dict_in k d); split; congruence.
Qed.

Lemma fits_nanoseconds_le (q : Q) :
  (0 <= q)%Q -> (q <= sleep_max)%Q -> fits_nanoseconds q = true.
Proof.
  intros H0 Hmax. unfold fits_nanoseconds.
  apply andb_true_intro. split; apply Qle_bool_iff.
  - apply Qle_trans with 0%Q; [discriminate|].
    apply Qmult_le_0_compat; [exact H0 | discriminate].
  - apply Qle_trans with (sleep_max * inject_Z (10 ^ 9))%Q.
    + apply Qmult_le_compat_r; [exact Hmax | discriminate].
    + discriminate.
Qed.



(** Unfolding of the monad's operations, to run a method by [simpl]. *)
Ltac munfold :=
  unfold mbind, M_bind, mret, M_ret, set_reg, gets, modify, raise in *.

(** ** Bus unavailable *)

Section Proofs.
Context `{RM : RegisterMap}.

(** C3: with the bus-availability flag false, each of the four bus
    operations returns its failure value, adds exactly one to the error
    counter, and leaves the registers and the FIFO as they were. *)
Theorem bus_unavailable_fails (s : I2CProtocolSimulator)
    (register value start_register count : Z) (values : list Z) :
  i2c_bus_available s = false ->
  let failed {A : Type} (failure : A) (r : A * I2CProtocolSimulator) :=
    r.1 = failure /\ errors r.2 = errors s + 1 /\
    registers r.2 = registers s /\ fifo_buffer r.2 = fifo_buffer s in
  failed false (write_register register value s) /\
  failed None (read_register register s) /\
  failed None (read_registers_burst start_register count s) /\
  failed false (write_registers_burst start_register values s).
Proof.
  intros Hbus failed. unfold failed.
  unfold write_register, read_register, read_registers_burst,
    write_registers_burst.
  rewrite Hbus. simpl. repeat split.
Qed.

End Proofs.

(** C3 on the chip's register map, after [set_bus_availability(False)]. *)
Lemma bus_unavailable_fails_witness :
  let s := (set_bus_availability false i2c).2 in
  i2c_bus_available s = false /\
  (write_register REG_LED1_PA 0x30 s).1 = false /\
  errors (write_register REG_LED1_PA 0x30 s).2 = errors s + 1.
Proof.
  intros s.
  assert (H : i2c_bus_available s = false) by reflexivity.
  split; [exact H|].
  pose proof (bus_unavailable_fails s REG_LED1_PA 0x30 0 0 [] H) as (Hw & _).
  destruct Hw as (Hw1 & Hw2 & _). split; assumption.
Defined.

(** ** Reset through the mode register *)

Section DeviceReset.
Context `{RM : RegisterMap}.

Lemma handle_device_reset_run s :
  _handle_device_reset s =
  (Ret tt,
   with_errors 0 (with_write_operations 0 (with_read_operations 0
     (with_fifo_buffer [] (with_registers DEFAULT_REGISTER_VALUES s))))).
Proof. reflexivity. Qed.

Lemma handle_mode_config_write_reset value s :
  Z.land value 0x40 <> 0 ->
  _handle_mode_config_write value s = _handle_device_reset s.
Proof.
  intros H. unfold _handle_mode_config_write, py_bool.
  destruct (Z.eqb_spec (Z.land value 0x40) 0) as [E|E]; [contradiction|reflexivity].
Qed.

(** C1: a write to the mode register with the reset bit set succeeds,
    restores the default table, empties the FIFO and zeroes the read and the
    error counters; the write counter, zeroed by the reset, is then
    incremented by [write_register] itself, so that it is 1, not 0, when
    the call returns. *)
Theorem reset_write_counts_itself (s : I2CProtocolSimulator) (value : Z) :
  i2c_bus_available s = true ->
  REG_MODE_CONFIG ∈ dom (registers s) ->
  (0 <= communication_delay s)%Q ->
  (communication_delay s <= sleep_max)%Q ->
  Z.land value 0x40 <> 0 ->
  let r := write_register REG_MODE_CONFIG value s in
  r.1 = true /\
  registers r.2 = DEFAULT_REGISTER_VALUES /\
  fifo_buffer r.2 = [] /\
  read_operations r.2 = 0 /\
  errors r.2 = 0 /\
  write_operations r.2 = 1.
Proof.
  intros Hbus Hin Hdelay Hmax Hbit r. subst r.
  pose proof (fits_nanoseconds_le _ Hdelay Hmax) as Hfits.
  apply dict_in_true in Hin. apply Qle_bool_iff in Hdelay.
  apply Z.eqb_neq in Hbit.
  unfold write_register, try_except, time_sleep, _handle_mode_config_write,
    py_bool.
  rewrite Hbus, Hin. munfold. rewrite Hfits, Hdelay, Z.eqb_refl, Hbit.
  simpl. repeat split.
Qed.

End DeviceReset.

(** C1 on the scenario of [test_device_reset]: two LED writes, then the
    reset; the test's [assert i2c.write_operations == 0] meets 1. *)
Lemma reset_write_counts_itself_witness :
  let s := (write_register REG_LED2_PA 0x40
             (write_register REG_LED1_PA 0x30 i2c).2).2 in
  write_operations s = 2 /\
  write_operations (write_register REG_MODE_CONFIG 0x40 s).2 = 1.
Proof.
  intros s. split; [reflexivity|].
  apply (reset_write_counts_itself s 0x40).
  - reflexivity.
  - apply dict_in_true. reflexivity.
  - vm_compute. discriminate.
  - vm_compute. discriminate.
  - vm_compute. discriminate.
Defined.

(** ** Preservation of a property through the monad *)

Section Preserves.
Context (P : I2CProtocolSimulator -> Prop).

Lemma preserves_ret {A : Type} (a : A) : preserves P (mret a).
Proof. intros s H. exact H. Qed.

Lemma preserves_raise {A : Type} (e : exn) : preserves P (raise (A := A) e).
Proof. intros s H. exact H. Qed.

Lemma preserves_gets {A : Type} (f : I2CProtocolSimulator -> A) :
  preserves P (gets f).
Proof. intros s H. exact H. Qed.

Lemma preserves_get_reg (k : Z) : preserves P (get_reg k).
Proof. intros s H. unfold get_reg. destruct (registers s !! k); exact H. Qed.

Lemma preserves_index {A : Type} (l : list A) (i : Z) : preserves P (index l i).
Proof. intros s H. unfold index. destruct (py_getitem l i); exact H. Qed.

Lemma preserves_time_sleep (q : Q) : preserves P (time_sleep q).
Proof.
  intros s H. unfold time_sleep.
  destruct (fits_nanoseconds q), (Qle_bool 0 q); exact H.
Qed.

Lemma preserves_float_mul_int (x : Q) (n : Z) :
  preserves P (float_mul_int x n).
Proof.
  intros s H. unfold float_mul_int.
  destruct (float_int_limit <=? Z.abs n); exact H.
Qed.

Lemma preserves_bind {A B : Type} (m : M A) (k : A -> M B) :
  preserves P m -> (forall a, preserves P (k a)) -> preserves P (m ≫= k).
Proof.
  intros Hm Hk s H. rewrite bind_run.
  specialize (Hm s H). destruct (m s) as [[a|e] s']; simpl in Hm.
  - apply Hk, Hm.
  - exact Hm.
Qed.

Lemma preserves_for_each {A B : Type} (l : list A) (body : B -> A -> M B) :
  (forall acc x, preserves P (body acc x)) ->
  forall acc, preserves P (for_each l acc body).
Proof.
  intros Hbody. induction l as [|x l IH]; intros acc; simpl.
  - apply preserves_ret.
  - apply preserves_bind; [apply Hbody | intros acc'; apply IH].
Qed.

Lemma preserves_try_except {A : Type} (body : M A) (failure : A) s :
  (forall s n, P s -> P (with_errors n s)) ->
  preserves P body -> P s -> P (try_except body failure s).2.
Proof.
  intros Herr Hbody H. unfold try_except.
  specialize (Hbody s H). destruct (body s) as [[a|e] s']; simpl in *.
  - exact Hbody.
  - apply Herr, Hbody.
Qed.

End Preserves.

Create HintDb pres.
#[local] Hint Resolve preserves_ret preserves_raise preserves_gets
  preserves_get_reg preserves_index preserves_time_sleep
  preserves_float_mul_int : pres.

(** ** The invariant *)

Section WellFormed.
Context `{RM : RegisterMap}.
Hypothesis OK : RegisterMapOK.

Lemma named_is_known (r : Z) : r ∈ named_registers -> known r.
Proof.
  intros Hin. destruct OK as [_ Hk].
  rewrite Forall_forall in Hk. apply Hk, Hin.
Qed.

Lemma known_INTR_STATUS_1 : known REG_INTR_STATUS_1.
Proof. apply named_is_known. unfold named_registers. set_solver. Qed.
Lemma known_FIFO_WR_PTR : known REG_FIFO_WR_PTR.
Proof. apply named_is_known. unfold named_registers. set_solver. Qed.
Lemma known_OVF_COUNTER : known REG_OVF_COUNTER.
Proof. apply named_is_known. unfold named_registers. set_solver. Qed.
Lemma known_FIFO_RD_PTR : known REG_FIFO_RD_PTR.
Proof. apply named_is_known. unfold named_registers. set_solver. Qed.
Lemma known_FIFO_CONFIG : known REG_FIFO_CONFIG.
Proof. apply named_is_known. unfold named_registers. set_solver. Qed.
Lemma known_MODE_CONFIG : known REG_MODE_CONFIG.
Proof. apply named_is_known. unfold named_registers. set_solver. Qed.
Lemma known_SPO2_CONFIG : known REG_SPO2_CONFIG.
Proof. apply named_is_known. unfold named_registers. set_solver. Qed.

Lemma wf_lookup s (r : Z) : wf s -> known r -> is_Some (registers s !! r).
Proof.
  intros [Hd _ _ _] Hk. apply elem_of_dom. rewrite Hd. exact Hk.
Qed.

Lemma wf_with_errors s n : wf s -> wf (with_errors n s).
Proof. intros [? ? ? ?]. split; assumption. Qed.

Lemma wf_set_reg (k v : Z) : known k -> preserves wf (set_reg k v).
Proof.
  intros Hk s [Hd Hr Hl Hq]. split; simpl; try assumption.
  rewrite dom_insert_L, Hd. unfold known in Hk.
  apply set_eq. intros x. rewrite elem_of_union, elem_of_singleton.
  split; [intros [->|Hx]; assumption | intros Hx; right; exact Hx].
Qed.

Lemma wf_modify_other (f : I2CProtocolSimulator -> I2CProtocolSimulator) :
  (forall s, registers (f s) = registers s) ->
  (forall s, fifo_buffer (f s) = fifo_buffer s) ->
  (forall s, communication_delay (f s) = communication_delay s) ->
  preserves wf (modify f).
Proof.
  intros Hr Hb Hq s [? ? ? ?].
  split; simpl; [rewrite Hr | rewrite Hb | rewrite Hb | rewrite Hq]; assumption.
Qed.

Lemma wf_handle_device_reset : preserves wf _handle_device_reset.
Proof.
  intros s [Hd Hr Hl Hq]. split; simpl; done.
Qed.

Lemma wf_handle_mode_config_write value :
  preserves wf (_handle_mode_config_write value).
Proof.
  unfold _handle_mode_config_write. destruct (py_bool _).
  - apply wf_handle_device_reset.
  - apply wf_set_reg, known_MODE_CONFIG.
Qed.

Lemma wf_handle_fifo_config_write value :
  preserves wf (_handle_fifo_config_write value).
Proof.
  unfold _handle_fifo_config_write.
  apply preserves_bind; [apply wf_set_reg, known_FIFO_CONFIG | intros _].
  apply preserves_bind; intros; apply wf_modify_other; reflexivity.
Qed.

Lemma wf_handle_spo2_config_write value :
  preserves wf (_handle_spo2_config_write value).
Proof.
  unfold _handle_spo2_config_write.
  apply preserves_bind; [apply wf_set_reg, known_SPO2_CONFIG | intros _].
  apply wf_modify_other; reflexivity.
Qed.

Lemma wf_handle_fifo_data_read : preserves wf _handle_fifo_data_read.
Proof.
  unfold _handle_fifo_data_read.
  apply preserves_bind; [auto with pres | intros buf].
  destruct buf as [|b buf]; [auto with pres|].
  apply preserves_bind; [auto with pres | intros rd].
  apply preserves_bind; [auto with pres | intros wr].
  apply preserves_bind.
  { destruct (rd =? wr); [|auto with pres].
    apply preserves_bind; auto with pres. }
  intros [|]; [auto with pres|].
  destruct (_ <? _); [|auto with pres].
  apply preserves_bind; [auto with pres | intros sample].
  apply preserves_bind; [auto with pres | intros value].
  apply preserves_bind; [apply wf_set_reg, known_FIFO_RD_PTR | intros _].
  auto with pres.
Qed.

Lemma wf_handle_interrupt_status_read :
  preserves wf _handle_interrupt_status_read.
Proof.
  unfold _handle_interrupt_status_read.
  apply preserves_bind; [auto with pres | intros value].
  apply preserves_bind; [apply wf_set_reg, known_INTR_STATUS_1 | intros _].
  auto with pres.
Qed.

Lemma wf_update_fifo_pointers : preserves wf _update_fifo_pointers.
Proof.
  unfold _update_fifo_pointers.
  apply preserves_bind; [auto with pres | intros buf].
  apply preserves_bind; [apply wf_set_reg, known_FIFO_WR_PTR | intros _].
  apply preserves_bind; [auto with pres | intros cfg].
  destruct (_ <=? _);
    (apply preserves_bind; [auto with pres | intros st]);
    apply wf_set_reg, known_INTR_STATUS_1.
Qed.

Lemma wf_initialize_device : preserves wf _initialize_device.
Proof.
  unfold _initialize_device.
  apply preserves_bind.
  { intros s [Hd Hr Hl Hq]. split; simpl; done. }
  intros _. apply preserves_bind; [apply wf_set_reg, known_MODE_CONFIG|].
  intros _. apply wf_set_reg, known_SPO2_CONFIG.
Qed.

Lemma wf_new (addr : Z) : wf (new addr).
Proof.
  apply wf_initialize_device. split; simpl; done.
Qed.

End WellFormed.

(** ** Packing and unpacking a sample *)

Lemma testbit_field (v k w n : Z) :
  0 <= k -> 0 <= w ->
  Z.testbit (Z.shiftl (Z.land (Z.shiftr v k) (Z.ones w)) k) n =
  Z.testbit v n && (k <=? n) && (n <? k + w).
Proof.
  intros Hk Hw.
  destruct (Z.leb_spec k n) as [Hkn|Hkn].
  - rewrite Z.shiftl_spec by lia.
    rewrite Z.land_spec, Z.shiftr_spec by lia.
    rewrite Z.testbit_ones_nonneg by lia.
    replace (n - k + k) with n by lia.
    destruct (Z.ltb_spec (n - k) w), (Z.ltb_spec n (k + w)); try lia;
      destruct (Z.testbit v n); reflexivity.
  - destruct (Z.neg_nonneg_cases n) as [Hn|Hn].
    + rewrite !Z.testbit_neg_r by lia. reflexivity.
    + rewrite Z.shiftl_spec by lia.
      rewrite (Z.testbit_neg_r _ (n - k)) by lia.
      destruct (Z.testbit v n); reflexivity.
Qed.

Lemma join_sample_bytes (v : Z) :
  join_bytes (Z.land (Z.shiftr v 16) 0x03) (Z.land (Z.shiftr v 8) 0xFF)
             (Z.land v 0xFF) =
  Z.land v 0x3FFFF.
Proof.
  unfold join_bytes.
  change 0x03 with (Z.ones 2). change 0xFF with (Z.ones 8).
  change 0x3FFFF with (Z.ones 18).
  rewrite <- (Z.shiftl_0_r (Z.land v (Z.ones 8))).
  rewrite <- (Z.shiftr_0_r v) at 3.
  apply Z.bits_inj'. intros n Hn.
  rewrite !Z.lor_spec, !testbit_field by lia.
  rewrite Z.land_spec, Z.testbit_ones_nonneg by lia.
  destruct (Z.testbit v n); simpl; [|reflexivity].
  destruct (Z.leb_spec 16 n), (Z.leb_spec 8 n), (Z.leb_spec 0 n),
    (Z.ltb_spec n (16 + 2)), (Z.ltb_spec n (8 + 8)), (Z.ltb_spec n (0 + 8)),
    (Z.ltb_spec n 18); simpl; try reflexivity; lia.
Qed.

Lemma land_18_bits (v : Z) : 0 <= Z.land v 0x3FFFF < 2 ^ 18.
Proof.
  change 0x3FFFF with (Z.ones 18). rewrite Z.land_ones by lia.
  apply Z.mod_pos_bound. lia.
Qed.

Lemma land_18_bits_id (v : Z) : 0 <= v < 2 ^ 18 -> Z.land v 0x3FFFF = v.
Proof.
  intros H. change 0x3FFFF with (Z.ones 18). rewrite Z.land_ones by lia.
  apply Z.mod_small, H.
Qed.

Lemma unpack_pack_sample (red ir : Z) :
  unpack_sample (pack_sample red ir) = (Z.land red 0x3FFFF, Z.land ir 0x3FFFF).
Proof.
  unfold unpack_sample, pack_sample, sample_bytes. simpl.
  rewrite !join_sample_bytes. reflexivity.
Qed.

Lemma length_pack_sample (red ir : Z) : length (pack_sample red ir) = 6%nat.
Proof. reflexivity. Qed.

(** ** Running the FIFO methods *)

Section Fifo.
Context `{RM : RegisterMap}.
Hypothesis OK : RegisterMapOK.

Lemma named_neq (i j : nat) (a b : Z) :
  named_registers !! i = Some a -> named_registers !! j = Some b ->
  i <> j -> a <> b.
Proof.
  intros Hi Hj Hij ->. apply Hij.
  destruct OK as [Hnd _]. exact (NoDup_lookup _ _ _ _ Hnd Hi Hj).
Qed.

Lemma update_fifo_pointers_run s cfg st :
  registers s !! REG_FIFO_CONFIG = Some cfg ->
  registers s !! REG_INTR_STATUS_1 = Some st ->
  let n := Z.of_nat (length (fifo_buffer s)) in
  _update_fifo_pointers s =
  (Ret tt,
   with_registers
     (<[REG_INTR_STATUS_1 :=
          if Z.land cfg 0x0F <=? n then Z.lor st 0x10
          else Z.land st (Z.lnot 0x10)]>
        (<[REG_FIFO_WR_PTR := (n * 6) mod (fifo_size * 6)]> (registers s)))
     s).
Proof.
  intros Hcfg Hst n.
  assert (Hwc : REG_FIFO_WR_PTR <> REG_FIFO_CONFIG)
    by (apply (named_neq 1 5); done).
  assert (Hwi : REG_FIFO_WR_PTR <> REG_INTR_STATUS_1)
    by (apply (named_neq 1 0); done).
  unfold _update_fifo_pointers. munfold. unfold get_reg. cbn [registers with_registers].
  rewrite (lookup_insert_ne _ _ _ _ Hwc), Hcfg.
  fold n. destruct (Z.land cfg 15 <=? n); cbn [registers with_registers];
    rewrite (lookup_insert_ne _ _ _ _ Hwi), Hst; reflexivity.
Qed.

Lemma push_sample_to_fifo_run s red ir cfg st ovf :
  registers s !! REG_FIFO_CONFIG = Some cfg ->
  registers s !! REG_INTR_STATUS_1 = Some st ->
  registers s !! REG_OVF_COUNTER = Some ovf ->
  let full := fifo_size <=? Z.of_nat (length (fifo_buffer s)) in
  let buf := (if full then tail (fifo_buffer s) else fifo_buffer s)
             ++ [pack_sample red ir] in
  let n := Z.of_nat (length buf) in
  let regs := if full
              then <[REG_OVF_COUNTER := Z.land (ovf + 1) 0x1F]> (registers s)
              else registers s in
  push_sample_to_fifo red ir s =
  (Ret tt,
   with_registers
     (<[REG_INTR_STATUS_1 :=
          Z.lor (if Z.land cfg 0x0F <=? n then Z.lor st 0x10
                 else Z.land st (Z.lnot 0x10)) 0x10]>
        (<[REG_FIFO_WR_PTR := (n * 6) mod (fifo_size * 6)]> regs))
     (with_fifo_buffer buf s)).
Proof.
  intros Hcfg Hst Hovf full buf n regs.
  assert (Hoc : REG_OVF_COUNTER <> REG_FIFO_CONFIG)
    by (apply (named_neq 2 5); done).
  assert (Hoi : REG_OVF_COUNTER <> REG_INTR_STATUS_1)
    by (apply (named_neq 2 0); done).
  unfold push_sample_to_fifo.
  rewrite bind_run. unfold gets at 1. cbv iota beta.
  set (s1 := with_fifo_buffer buf (with_registers regs s)).
  assert (Hcfg1 : registers s1 !! REG_FIFO_CONFIG = Some cfg).
  { subst s1 regs. simpl. destruct full; [rewrite lookup_insert_ne by done|]; done. }
  assert (Hst1 : registers s1 !! REG_INTR_STATUS_1 = Some st).
  { subst s1 regs. simpl. destruct full; [rewrite lookup_insert_ne by done|]; done. }
  pose proof (update_fifo_pointers_run s1 cfg st Hcfg1 Hst1) as Hupd.
  cbv zeta in Hupd.
  assert (Hlen : (0 <? Z.of_nat (length buf)) = true).
  { apply Z.ltb_lt. subst buf. rewrite length_app. simpl. lia. }
  assert (Hfirst :
    (if fifo_size <=? Z.of_nat (length (fifo_buffer s))
     then (ovf0 ← get_reg REG_OVF_COUNTER;
           set_reg REG_OVF_COUNTER (Z.land (ovf0 + 1) 31);;
           match fifo_buffer s with
           | [] => mret ()
           | _ :: rest => modify (with_fifo_buffer rest)
           end)
     else mret ()) s =
    (Ret tt, if full then with_fifo_buffer (tail (fifo_buffer s))
                            (with_registers regs s)
             else s)).
  { subst regs full.
    destruct (fifo_size <=? Z.of_nat (length (fifo_buffer s))).
    - munfold. rewrite (get_reg_Some _ _ _ Hovf).
      destruct s as [da r b av d ro wo er sr avs fr]. simpl.
      destruct b; reflexivity.
    - reflexivity. }
  rewrite (bind_ret _ _ _ _ _ Hfirst).
  rewrite bind_run. unfold modify at 1. cbv iota.
  replace (with_fifo_buffer _ _) with s1.
  2:{ subst s1 buf regs. destruct full; destruct s; reflexivity. }
  rewrite (bind_ret _ _ _ _ _ Hupd).
  rewrite bind_run. unfold gets at 1. cbv iota.
  replace (fifo_buffer (with_registers _ s1)) with buf by reflexivity.
  rewrite Hlen. munfold. unfold get_reg. cbn [registers with_registers].
  rewrite lookup_insert_eq. cbv iota. cbn [registers with_registers].
  rewrite insert_insert_eq. reflexivity.
Qed.

Lemma dom_insert_known (k v : Z) (m : gmap Z Z) :
  k ∈ dom m -> dom (<[k := v]> m) = dom m.
Proof.
  intros Hk. rewrite dom_insert_L.
  apply set_eq. intros x. rewrite elem_of_union, elem_of_singleton.
  split; [intros [->|Hx]; assumption | intros Hx; right; exact Hx].
Qed.

Lemma testbit_lor_16 (st : Z) : Z.testbit (Z.lor st 0x10) 4 = true.
Proof. rewrite Z.lor_spec. apply orb_true_r. Qed.

Lemma testbit_land_lnot_16 (st : Z) :
  Z.testbit (Z.land st (Z.lnot 0x10)) 4 = false.
Proof. rewrite Z.land_spec. apply andb_false_r. Qed.

(** One push on a well-formed object: it returns, and this is the object
    it leaves. *)
Lemma push_sample_to_fifo_spec s red ir ovf :
  wf s ->
  registers s !! REG_OVF_COUNTER = Some ovf ->
  let full := fifo_size <=? Z.of_nat (length (fifo_buffer s)) in
  exists s',
    push_sample_to_fifo red ir s = (Ret tt, s') /\
    wf s' /\
    fifo_buffer s' =
      (if full then tail (fifo_buffer s) else fifo_buffer s)
      ++ [pack_sample red ir] /\
    registers s' !! REG_OVF_COUNTER =
      Some (if full then Z.land (ovf + 1) 0x1F else ovf) /\
    registers s' !! REG_FIFO_CONFIG = registers s !! REG_FIFO_CONFIG /\
    (exists st, registers s' !! REG_INTR_STATUS_1 = Some st /\
                Z.testbit st 4 = true).
Proof.
  intros Hwf Hovf full.
  destruct (wf_lookup s _ Hwf (known_FIFO_CONFIG OK)) as [cfg Hcfg].
  destruct (wf_lookup s _ Hwf (known_INTR_STATUS_1 OK)) as [st Hst].
  pose proof (push_sample_to_fifo_run s red ir cfg st ovf Hcfg Hst Hovf) as Hrun.
  cbv zeta in Hrun. fold full in Hrun.
  assert (Hio : REG_INTR_STATUS_1 <> REG_OVF_COUNTER)
    by (apply (named_neq 0 2); done).
  assert (Hwo : REG_FIFO_WR_PTR <> REG_OVF_COUNTER)
    by (apply (named_neq 1 2); done).
  assert (Hic : REG_INTR_STATUS_1 <> REG_FIFO_CONFIG)
    by (apply (named_neq 0 5); done).
  assert (Hwc : REG_FIFO_WR_PTR <> REG_FIFO_CONFIG)
    by (apply (named_neq 1 5); done).
  assert (Hoc : REG_OVF_COUNTER <> REG_FIFO_CONFIG)
    by (apply (named_neq 2 5); done).
  destruct Hwf as [Hd Hr Hl Hq].
  eexists. split; [exact Hrun|].
  cbn [registers fifo_buffer with_registers with_fifo_buffer].
  repeat split.
  - cbn [registers with_registers with_fifo_buffer].
    match goal with
    | |- dom (<[_ := _]> (<[_ := ?x]> ?r)) = _ =>
      assert (Hd1 : dom r = dom DEFAULT_REGISTER_VALUES);
      [|assert (Hd2 : dom (<[REG_FIFO_WR_PTR := x]> r)
                      = dom DEFAULT_REGISTER_VALUES)]
    end.
    + destruct full; [rewrite dom_insert_known|]; try exact Hd.
      rewrite Hd. apply (known_OVF_COUNTER OK).
    + rewrite dom_insert_known; [exact Hd1|].
      rewrite Hd1. apply (known_FIFO_WR_PTR OK).
    + rewrite dom_insert_known; [exact Hd2|].
      rewrite Hd2. apply (known_INTR_STATUS_1 OK).
  - cbn [fifo_buffer with_registers with_fifo_buffer].
    apply Forall_app. split; [|repeat constructor].
    destruct full; [|exact Hr].
    destruct (fifo_buffer s); [constructor | by inversion Hr].
  - cbn [fifo_buffer with_registers with_fifo_buffer].
    rewrite length_app. simpl length. subst full. unfold fifo_size in *.
    destruct (Z.leb_spec 32 (Z.of_nat (length (fifo_buffer s)))) as [Hf|Hf].
    + destruct (fifo_buffer s); simpl in *; lia.
    + lia.
  - exact Hq.
  - rewrite lookup_insert_ne, lookup_insert_ne by done.
    destruct full; [apply lookup_insert_eq | exact Hovf].
  - rewrite lookup_insert_ne, lookup_insert_ne by done.
    destruct full; [apply lookup_insert_ne; done | reflexivity].
  - eexists. split; [apply lookup_insert_eq | apply testbit_lor_16].
Qed.

Lemma wf_push_sample_to_fifo red ir : preserves wf (push_sample_to_fifo red ir).
Proof.
  intros s Hwf.
  destruct (wf_lookup s _ Hwf (known_OVF_COUNTER OK)) as [ovf Hovf].
  destruct (push_sample_to_fifo_spec s red ir ovf Hwf Hovf) as (s' & Hrun & Hwf' & _).
  rewrite Hrun. exact Hwf'.
Qed.

Lemma read_fifo_step_run samples i s sample_data rest :
  fifo_buffer s = sample_data :: rest ->
  length sample_data = 6%nat ->
  read_fifo_step samples i s =
  (Ret (samples ++ [unpack_sample sample_data]), with_fifo_buffer rest s).
Proof.
  intros Hbuf Hlen.
  destruct sample_data as [|r0 [|r1 [|r2 [|i0 [|i1 [|i2 [|]]]]]]];
    try discriminate.
  unfold read_fifo_step. rewrite bind_run. unfold gets at 1.
  cbv iota. rewrite Hbuf. reflexivity.
Qed.

Lemma read_fifo_loop_run (l : list Z) : forall samples s,
  (length l <= length (fifo_buffer s))%nat ->
  Forall (fun r => length r = 6%nat) (fifo_buffer s) ->
  for_each l samples read_fifo_step s =
  (Ret (samples ++ map unpack_sample (take (length l) (fifo_buffer s))),
   with_fifo_buffer (drop (length l) (fifo_buffer s)) s).
Proof.
  induction l as [|i l IH]; intros samples s Hlen Hall.
  - simpl. rewrite app_nil_r, drop_0. destruct s; reflexivity.
  - destruct (fifo_buffer s) as [|sample_data rest] eqn:Hbuf;
      [simpl in Hlen; lia|].
    inversion Hall as [|? ? H6 Hrest]; subst.
    simpl for_each.
    rewrite (bind_ret _ _ _ _ _ (read_fifo_step_run samples i s _ _ Hbuf H6)).
    rewrite IH; cbn [fifo_buffer with_fifo_buffer];
      [|simpl in Hlen; lia | exact Hrest].
    simpl. rewrite <- app_assoc. reflexivity.
Qed.

(** [read_fifo_samples] on a well-formed object: it returns, and this is
    what it returns and the FIFO it leaves. *)
Lemma read_fifo_samples_spec s sample_count :
  wf s ->
  let k := Z.to_nat (Z.min sample_count (Z.of_nat (length (fifo_buffer s)))) in
  exists s',
    read_fifo_samples sample_count s =
      (Ret (map unpack_sample (take k (fifo_buffer s))), s') /\
    wf s' /\
    fifo_buffer s' = drop k (fifo_buffer s).
Proof.
  intros Hwf k.
  assert (Hk : (k <= length (fifo_buffer s))%nat) by (subst k; lia).
  unfold read_fifo_samples. rewrite bind_run. unfold gets at 1. cbv iota.
  assert (Hseq : length (seqZ 0 (Z.min sample_count
                   (Z.of_nat (length (fifo_buffer s))))) = k)
    by apply length_seqZ.
  rewrite bind_run, read_fifo_loop_run;
    [|rewrite Hseq; exact Hk | apply (wf_records s Hwf)].
  rewrite Hseq. simpl app.
  set (s1 := with_fifo_buffer (drop k (fifo_buffer s)) s).
  assert (Hwf1 : wf s1).
  { destruct Hwf as [Hd Hr Hl Hq]. split; simpl; try assumption.
    - apply Forall_drop, Hr.
    - rewrite length_drop. lia. }
  destruct (wf_lookup s1 _ Hwf1 (known_FIFO_CONFIG OK)) as [cfg Hcfg].
  destruct (wf_lookup s1 _ Hwf1 (known_INTR_STATUS_1 OK)) as [st Hst].
  rewrite (bind_ret _ _ _ _ _ (update_fifo_pointers_run s1 cfg st Hcfg Hst)).
  eexists. split; [reflexivity|]. split; [|reflexivity].
  pose proof (wf_update_fifo_pointers OK s1 Hwf1) as Hwf2.
  rewrite (update_fifo_pointers_run s1 cfg st Hcfg Hst) in Hwf2.
  exact Hwf2.
Qed.

Lemma wf_read_fifo_samples sample_count :
  preserves wf (read_fifo_samples sample_count).
Proof.
  intros s Hwf.
  destruct (read_fifo_samples_spec s sample_count Hwf) as (s' & Hrun & Hwf' & _).
  rewrite Hrun. exact Hwf'.
Qed.

(** Facts on the last [n] elements. *)
Lemma last_n_short {A : Type} (n : nat) (l : list A) :
  (length l <= n)%nat -> last_n n l = l.
Proof.
  intros H. unfold last_n. replace (length l - n)%nat with 0%nat by lia.
  apply drop_0.
Qed.

Lemma last_n_snoc {A : Type} (n : nat) (l : list A) (x : A) :
  (length l <= S n)%nat ->
  last_n (S n) (l ++ [x]) =
  (if (S n <=? length l)%nat then tail l else l) ++ [x].
Proof.
  intros H. unfold last_n. rewrite length_app. simpl length.
  destruct (Nat.leb_spec (S n) (length l)) as [Hfull|Hroom].
  - replace (length l + 1 - S n)%nat with 1%nat by lia.
    destruct l; [simpl in Hfull; lia | reflexivity].
  - replace (length l + 1 - S n)%nat with 0%nat by lia. apply drop_0.
Qed.

Lemma last_n_app_last_n {A : Type} (n : nat) (a b : list A) :
  last_n n (last_n n a ++ b) = last_n n (a ++ b).
Proof.
  unfold last_n. rewrite !length_app, length_drop.
  destruct (Nat.le_gt_cases (length a) n) as [Hle|Hgt].
  - replace (length a - n)%nat with 0%nat by lia. rewrite drop_0.
    f_equal. lia.
  - rewrite <- (drop_app_le a b (length a - n)) by lia.
    rewrite drop_drop. f_equal. lia.
Qed.

(** A run of pushes on a well-formed object: every push returns; the FIFO
    keeps the last 32 records, and the overflow counter advances, modulo
    32, by the number of records that found the FIFO full. *)
Lemma push_all_spec (records : list (Z * Z)) : forall s,
  wf s ->
  exists s',
    push_all records s = (Ret tt, s') /\
    wf s' /\
    fifo_buffer s' =
      last_n 32 (fifo_buffer s ++ map (fun r => pack_sample r.1 r.2) records) /\
    forall ovf,
      registers s !! REG_OVF_COUNTER = Some ovf ->
      0 <= ovf < 32 ->
      registers s' !! REG_OVF_COUNTER =
        Some ((ovf + Z.max 0 (Z.of_nat (length (fifo_buffer s))
                              + Z.of_nat (length records) - 32)) mod 32).
Proof.
  induction records as [|[red ir] records IH]; intros s Hwf.
  - exists s. pose proof (wf_length s Hwf) as Hl. unfold fifo_size in Hl.
    split; [reflexivity|]. split; [exact Hwf|]. split.
    + simpl. rewrite app_nil_r, last_n_short by lia. reflexivity.
    + intros ovf Hovf Hrange. simpl length. rewrite Hovf. f_equal.
      rewrite Z.max_l by lia. rewrite Z.add_0_r, Z.mod_small by lia.
      reflexivity.
  - destruct (wf_lookup s _ Hwf (known_OVF_COUNTER OK)) as [ovf Hovf].
    destruct (push_sample_to_fifo_spec s red ir ovf Hwf Hovf)
      as (s1 & Hrun & Hwf1 & Hbuf1 & Hovf1 & _).
    pose proof (wf_length s Hwf) as Hl. unfold fifo_size in Hl, Hbuf1, Hovf1.
    set (ovf1 := if 32 <=? Z.of_nat (length (fifo_buffer s))
                 then Z.land (ovf + 1) 31 else ovf) in *.
    destruct (IH s1 Hwf1) as (s' & Hrun' & Hwf' & Hbuf' & Hovf').
    exists s'. split; [|split; [exact Hwf'|split]].
    + unfold push_all in *. simpl for_each.
      rewrite (bind_ret _ _ _ _ _ Hrun). exact Hrun'.
    + rewrite Hbuf', Hbuf1. simpl map.
      replace (fifo_buffer s ++ pack_sample red ir :: map _ records)
        with ((fifo_buffer s ++ [pack_sample red ir])
              ++ map (fun r => pack_sample r.1 r.2) records)
        by (rewrite <- app_assoc; reflexivity).
      rewrite <- (last_n_app_last_n 32 (fifo_buffer s ++ _)).
      rewrite (last_n_snoc 31) by lia.
      f_equal. f_equal.
      destruct (Z.leb_spec 32 (Z.of_nat (length (fifo_buffer s)))),
        (Nat.leb_spec 32 (length (fifo_buffer s))); try reflexivity; lia.
    + intros ovf0 Hovf0 Hrange.
      assert (ovf0 = ovf) by congruence. subst ovf0.
      assert (Hrange1 : 0 <= ovf1 < 32).
      { subst ovf1. destruct (_ <=? _); [|exact Hrange].
        change 31 with (Z.ones 5). rewrite Z.land_ones by lia.
        apply Z.mod_pos_bound. lia. }
      rewrite (Hovf' ovf1 Hovf1 Hrange1). f_equal.
      rewrite Hbuf1, length_app. simpl length.
      subst ovf1.
      destruct (Z.leb_spec 32 (Z.of_nat (length (fifo_buffer s)))) as [Hf|Hf].
      * assert (Hlen : length (fifo_buffer s) = 32%nat) by lia.
        destruct (fifo_buffer s) as [|b0 rest]; [discriminate|].
        simpl tail. simpl length in *.
        change 31 with (Z.ones 5). rewrite Z.land_ones by lia.
        change (2 ^ 5) with 32.
        rewrite !Z.max_r by lia.
        rewrite Zplus_mod_idemp_l. f_equal. lia.
      * f_equal. f_equal. lia.
Qed.

Lemma get_device_status_fifo_samples s :
  wf s ->
  exists status,
    get_device_status s = (Ret status, s) /\
    status_fifo_samples status = Z.of_nat (length (fifo_buffer s)).
Proof.
  intros Hwf.
  destruct (wf_lookup s _ Hwf (known_MODE_CONFIG OK)) as [mode Hmode].
  unfold get_device_status. munfold. unfold get_reg.
  rewrite Hmode. cbv iota beta. rewrite Hmode.
  eexists. split; reflexivity.
Qed.

(** C4: 37 pushes into the empty FIFO leave the last 32 records, in
    order, and an overflow counter of 5; and every push onto a full FIFO
    returns, drops the record at index 0, appends the new one, and adds one
    to the overflow counter modulo 32. *)
Theorem fifo_overflow_keeps_newest :
  (forall s (records : list (Z * Z)),
     wf s ->
     fifo_buffer s = [] ->
     registers s !! REG_OVF_COUNTER = Some 0 ->
     length records = 37%nat ->
     exists s',
       push_all records s = (Ret tt, s') /\
       fifo_buffer s' = map (fun r => pack_sample r.1 r.2) (drop 5 records) /\
       length (fifo_buffer s') = 32%nat /\
       registers s' !! REG_OVF_COUNTER = Some 5) /\
  (forall s (red_sample ir_sample ovf : Z),
     wf s ->
     Z.of_nat (length (fifo_buffer s)) = fifo_size ->
     registers s !! REG_OVF_COUNTER = Some ovf ->
     exists s',
       push_sample_to_fifo red_sample ir_sample s = (Ret tt, s') /\
       fifo_buffer s' =
         tail (fifo_buffer s) ++ [pack_sample red_sample ir_sample] /\
       registers s' !! REG_OVF_COUNTER = Some ((ovf + 1) mod 32)).
Proof.
  split.
  - intros s records Hwf Hempty Hovf Hlen.
    destruct (push_all_spec records s Hwf) as (s' & Hrun & _ & Hbuf & Hovf').
    rewrite Hempty in Hbuf, Hovf'. simpl in Hbuf.
    assert (Hbuf' : fifo_buffer s' =
                    map (fun r => pack_sample r.1 r.2) (drop 5 records)).
    { rewrite Hbuf. unfold last_n. rewrite length_map, Hlen.
      change (37 - 32)%nat with 5%nat. apply skipn_map. }
    exists s'. split; [exact Hrun|]. split; [exact Hbuf'|]. split.
    + rewrite Hbuf', length_map, length_drop, Hlen. reflexivity.
    + rewrite (Hovf' 0 Hovf) by lia. rewrite Hlen. reflexivity.
  - intros s red ir ovf Hwf Hfull Hovf.
    destruct (push_sample_to_fifo_spec s red ir ovf Hwf Hovf)
      as (s' & Hrun & _ & Hbuf & Hovf' & _).
    rewrite Hfull, Z.leb_refl in Hbuf, Hovf'.
    exists s'. split; [exact Hrun|]. split; [exact Hbuf|].
    rewrite Hovf'. change 31 with (Z.ones 5). rewrite Z.land_ones by lia.
    reflexivity.
Qed.

(** C5: a push into the empty FIFO followed by a read of one sample gives
    back the two values cut to their low 18 bits, which are below 2^18, and
    gives back the values themselves when they lie in [0, 2^18 - 1]. *)
Theorem sample_round_trip (s : I2CProtocolSimulator) (red_sample ir_sample : Z) :
  wf s ->
  fifo_buffer s = [] ->
  exists s1 s2,
    push_sample_to_fifo red_sample ir_sample s = (Ret tt, s1) /\
    read_fifo_samples 1 s1 =
      (Ret [(Z.land red_sample 0x3FFFF, Z.land ir_sample 0x3FFFF)], s2) /\
    0 <= Z.land red_sample 0x3FFFF < 2 ^ 18 /\
    0 <= Z.land ir_sample 0x3FFFF < 2 ^ 18 /\
    (0 <= red_sample < 2 ^ 18 -> 0 <= ir_sample < 2 ^ 18 ->
     read_fifo_samples 1 s1 = (Ret [(red_sample, ir_sample)], s2)).
Proof.
  intros Hwf Hempty.
  destruct (wf_lookup s _ Hwf (known_OVF_COUNTER OK)) as [ovf Hovf].
  destruct (push_sample_to_fifo_spec s red_sample ir_sample ovf Hwf Hovf)
    as (s1 & Hrun & Hwf1 & Hbuf & _).
  rewrite Hempty in Hbuf. simpl in Hbuf.
  destruct (read_fifo_samples_spec s1 1 Hwf1) as (s2 & Hread & _).
  rewrite Hbuf in Hread. simpl in Hread. rewrite unpack_pack_sample in Hread.
  exists s1, s2. split; [exact Hrun|]. split; [exact Hread|].
  split; [apply land_18_bits|]. split; [apply land_18_bits|].
  intros Hred Hir. rewrite Hread.
  rewrite (land_18_bits_id _ Hred), (land_18_bits_id _ Hir). reflexivity.
Qed.

(** C6: the two records of the test, pushed into the empty FIFO and read
    back with [read_fifo_samples(2)], come back unchanged and in order, and
    the status then reports no sample; in general [read_fifo_samples(count)]
    returns the unpacked [min(count, length)] oldest records and removes
    exactly them, so that records pushed into the empty FIFO come back, cut
    to 18 bits, in the order of the pushes. *)
Theorem fifo_round_trip :
  (forall s,
     wf s ->
     fifo_buffer s = [] ->
     exists s1 s2 s3 status,
       push_sample_to_fifo 10000 9500 s = (Ret tt, s1) /\
       push_sample_to_fifo 11000 10500 s1 = (Ret tt, s2) /\
       read_fifo_samples 2 s2 = (Ret [(10000, 9500); (11000, 10500)], s3) /\
       fifo_buffer s3 = [] /\
       get_device_status s3 = (Ret status, s3) /\
       status_fifo_samples status = 0) /\
  (forall s (sample_count : Z),
     wf s ->
     let k := Z.to_nat (Z.min sample_count
                              (Z.of_nat (length (fifo_buffer s)))) in
     exists s',
       read_fifo_samples sample_count s =
         (Ret (map unpack_sample (take k (fifo_buffer s))), s') /\
       fifo_buffer s' = drop k (fifo_buffer s)) /\
  (forall s (records : list (Z * Z)) (sample_count : Z),
     wf s ->
     fifo_buffer s = [] ->
     Z.of_nat (length records) <= fifo_size ->
     let k := Z.to_nat (Z.min sample_count (Z.of_nat (length records))) in
     exists s1 s2,
       push_all records s = (Ret tt, s1) /\
       read_fifo_samples sample_count s1 =
         (Ret (take k (map (fun r => (Z.land r.1 0x3FFFF, Z.land r.2 0x3FFFF))
                           records)), s2) /\
       fifo_buffer s2 =
         drop k (map (fun r => pack_sample r.1 r.2) records)).
Proof.
  split; [|split].
  - intros s Hwf Hempty.
    destruct (wf_lookup s _ Hwf (known_OVF_COUNTER OK)) as [ovf Hovf].
    destruct (push_sample_to_fifo_spec s 10000 9500 ovf Hwf Hovf)
      as (s1 & Hrun1 & Hwf1 & Hbuf1 & Hovf1 & _).
    rewrite Hempty in Hbuf1, Hovf1. simpl in Hbuf1, Hovf1.
    destruct (push_sample_to_fifo_spec s1 11000 10500 ovf Hwf1 Hovf1)
      as (s2 & Hrun2 & Hwf2 & Hbuf2 & _).
    rewrite Hbuf1 in Hbuf2. simpl in Hbuf2.
    destruct (read_fifo_samples_spec s2 2 Hwf2) as (s3 & Hread & Hwf3 & Hbuf3).
    rewrite Hbuf2 in Hread, Hbuf3. simpl in Hread, Hbuf3.
    destruct (get_device_status_fifo_samples s3 Hwf3) as (status & Hst & Hn).
    rewrite Hbuf3 in Hn.
    exists s1, s2, s3, status. repeat split; assumption.
  - intros s sample_count Hwf k.
    destruct (read_fifo_samples_spec s sample_count Hwf) as (s' & Hread & _ & Hbuf).
    exists s'. split; assumption.
  - intros s records sample_count Hwf Hempty Hlen k.
    destruct (push_all_spec records s Hwf) as (s1 & Hrun & Hwf1 & Hbuf1 & _).
    rewrite Hempty in Hbuf1. simpl in Hbuf1.
    unfold fifo_size in Hlen.
    rewrite last_n_short in Hbuf1 by (rewrite length_map; lia).
    destruct (read_fifo_samples_spec s1 sample_count Hwf1)
      as (s2 & Hread & _ & Hbuf2).
    rewrite Hbuf1, length_map in Hread, Hbuf2. fold k in Hread, Hbuf2.
    exists s1, s2. split; [exact Hrun|]. split; [|exact Hbuf2].
    rewrite Hread. f_equal. f_equal.
    rewrite !firstn_map, map_map.
    apply map_ext. intros [red ir]. apply unpack_pack_sample.
Qed.

(** C7: after every push bit 4 of the interrupt-status register is set,
    whatever the almost-full threshold: [_update_fifo_pointers] sets the bit
    exactly when the length has reached the low 4 bits of the FIFO-config
    register and clears it otherwise, and [push_sample_to_fifo] then sets
    it again because the FIFO is not empty. *)
Theorem push_sets_almost_full_bit (s : I2CProtocolSimulator)
    (red_sample ir_sample : Z) :
  wf s ->
  (exists s' st,
     push_sample_to_fifo red_sample ir_sample s = (Ret tt, s') /\
     registers s' !! REG_INTR_STATUS_1 = Some st /\
     Z.testbit st 4 = true) /\
  (exists s' st cfg,
     _update_fifo_pointers s = (Ret tt, s') /\
     registers s' !! REG_INTR_STATUS_1 = Some st /\
     registers s' !! REG_FIFO_CONFIG = Some cfg /\
     (Z.testbit st 4 = true <->
      Z.land cfg 0x0F <= Z.of_nat (length (fifo_buffer s')))).
Proof.
  intros Hwf. split.
  - destruct (wf_lookup s _ Hwf (known_OVF_COUNTER OK)) as [ovf Hovf].
    destruct (push_sample_to_fifo_spec s red_sample ir_sample ovf Hwf Hovf)
      as (s' & Hrun & _ & _ & _ & _ & st & Hst & Hbit).
    exists s', st. repeat split; assumption.
  - destruct (wf_lookup s _ Hwf (known_FIFO_CONFIG OK)) as [cfg Hcfg].
    destruct (wf_lookup s _ Hwf (known_INTR_STATUS_1 OK)) as [st Hst].
    assert (Hic : REG_INTR_STATUS_1 <> REG_FIFO_CONFIG)
      by (apply (named_neq 0 5); done).
    assert (Hwc : REG_FIFO_WR_PTR <> REG_FIFO_CONFIG)
      by (apply (named_neq 1 5); done).
    eexists _, _, cfg.
    split; [apply (update_fifo_pointers_run s cfg st Hcfg Hst)|].
    cbn [registers fifo_buffer with_registers].
    split; [apply lookup_insert_eq|]. split.
    + rewrite !lookup_insert_ne by done. exact Hcfg.
    + destruct (Z.leb_spec (Z.land cfg 15) (Z.of_nat (length (fifo_buffer s))))
        as [Hge|Hlt].
      * rewrite testbit_lor_16. split; [intros _; exact Hge | reflexivity].
      * rewrite testbit_land_lnot_16. split; [discriminate | lia].
Qed.

End Fifo.

(** ** The invariant holds in every reachable state *)

Section Reachable.
Context `{RM : RegisterMap}.
Hypothesis OK : RegisterMapOK.

Lemma wf_incr_write_operations :
  preserves wf
    (modify (fun s => with_write_operations (write_operations s + 1) s)).
Proof. apply wf_modify_other; reflexivity. Qed.

Lemma wf_incr_read_operations :
  preserves wf
    (modify (fun s => with_read_operations (read_operations s + 1) s)).
Proof. apply wf_modify_other; reflexivity. Qed.

Lemma wf_write_register register value s :
  wf s -> wf (write_register register value s).2.
Proof.
  intros Hwf. unfold write_register.
  destruct (i2c_bus_available s); simpl negb; cbv iota;
    [|apply wf_with_errors, Hwf].
  destruct (dict_in register (registers s)) eqn:Hin; simpl negb; cbv iota;
    [|apply wf_with_errors, Hwf].
  assert (Hk : known register).
  { apply dict_in_true in Hin. unfold known. rewrite <- (wf_dom s Hwf). exact Hin. }
  apply preserves_try_except; [apply wf_with_errors| |exact Hwf].
  apply preserves_bind; [auto with pres | intros delay].
  apply preserves_bind; [auto with pres | intros _].
  apply preserves_bind.
  - destruct (register =? REG_MODE_CONFIG);
      [apply (wf_handle_mode_config_write OK)|].
    destruct (register =? REG_FIFO_CONFIG);
      [apply (wf_handle_fifo_config_write OK)|].
    destruct (register =? REG_FIFO_WR_PTR);
      [apply wf_set_reg, (known_FIFO_WR_PTR OK)|].
    destruct (register =? REG_FIFO_RD_PTR);
      [apply wf_set_reg, (known_FIFO_RD_PTR OK)|].
    destruct (register =? REG_SPO2_CONFIG);
      [apply (wf_handle_spo2_config_write OK)|].
    apply wf_set_reg, Hk.
  - intros _. apply preserves_bind; [apply wf_incr_write_operations|].
    intros _. auto with pres.
Qed.

Lemma wf_read_register register s :
  wf s -> wf (read_register register s).2.
Proof.
  intros Hwf. unfold read_register.
  destruct (i2c_bus_available s); simpl negb; cbv iota;
    [|apply wf_with_errors, Hwf].
  destruct (dict_in register (registers s)); simpl negb; cbv iota;
    [|apply wf_with_errors, Hwf].
  apply preserves_try_except; [apply wf_with_errors| |exact Hwf].
  apply preserves_bind; [auto with pres | intros delay].
  apply preserves_bind; [auto with pres | intros _].
  apply preserves_bind; [auto with pres | intros value].
  apply preserves_bind.
  - destruct (register =? REG_FIFO_DATA);
      [apply (wf_handle_fifo_data_read OK)|].
    destruct (register =? REG_INTR_STATUS_1);
      [apply (wf_handle_interrupt_status_read OK) | auto with pres].
  - intros value'. apply preserves_bind; [apply wf_incr_read_operations|].
    intros _. auto with pres.
Qed.

Lemma wf_burst_read_step start_register values i :
  preserves wf (burst_read_step start_register values i).
Proof.
  unfold burst_read_step.
  apply preserves_bind; [auto with pres | intros regs].
  destruct (dict_in _ regs); [|auto with pres].
  apply preserves_bind; [auto with pres | intros value].
  apply preserves_bind; [|auto with pres].
  destruct (_ =? _); [apply (wf_handle_fifo_data_read OK) | auto with pres].
Qed.

Lemma wf_read_registers_burst start_register count s :
  wf s -> wf (read_registers_burst start_register count s).2.
Proof.
  intros Hwf. unfold read_registers_burst.
  destruct (i2c_bus_available s); simpl negb; cbv iota;
    [|apply wf_with_errors, Hwf].
  apply preserves_try_except; [apply wf_with_errors| |exact Hwf].
  apply preserves_bind; [auto with pres | intros delay].
  apply preserves_bind; [auto with pres | intros secs].
  apply preserves_bind; [auto with pres | intros _].
  apply preserves_bind.
  - apply preserves_for_each. intros acc x. apply wf_burst_read_step.
  - intros values. apply preserves_bind; [apply wf_incr_read_operations|].
    intros _. auto with pres.
Qed.

Lemma wf_burst_write_step start_register u iv :
  preserves wf (burst_write_step start_register u iv).
Proof.
  intros s Hwf. unfold burst_write_step.
  rewrite bind_run. unfold gets at 1. cbv iota.
  destruct (dict_in (start_register + iv.1) (registers s)) eqn:Hin;
    [|exact Hwf].
  assert (Hk : known (start_register + iv.1)).
  { apply dict_in_true in Hin. unfold known. rewrite <- (wf_dom s Hwf). exact Hin. }
  match goal with
  | |- wf (?m s).2 => cut (preserves wf m); [intros Hp; exact (Hp s Hwf)|]
  end.
  apply preserves_bind; [apply wf_set_reg, Hk | intros _].
  destruct (_ =? REG_MODE_CONFIG);
    [apply (wf_handle_mode_config_write OK)|].
  destruct (_ =? REG_FIFO_CONFIG);
    [apply (wf_handle_fifo_config_write OK) | auto with pres].
Qed.

Lemma wf_write_registers_burst start_register values s :
  wf s -> wf (write_registers_burst start_register values s).2.
Proof.
  intros Hwf. unfold write_registers_burst.
  destruct (i2c_bus_available s); simpl negb; cbv iota;
    [|apply wf_with_errors, Hwf].
  apply preserves_try_except; [apply wf_with_errors| |exact Hwf].
  apply preserves_bind; [auto with pres | intros delay].
  apply preserves_bind; [auto with pres | intros secs].
  apply preserves_bind; [auto with pres | intros _].
  apply preserves_bind.
  - apply preserves_for_each. intros acc x. apply wf_burst_write_step.
  - intros _. apply preserves_bind; [apply wf_incr_write_operations|].
    intros _. auto with pres.
Qed.

Lemma wf_get_device_status : preserves wf get_device_status.
Proof.
  unfold get_device_status.
  apply preserves_bind; [auto with pres | intros s0].
  apply preserves_bind; [auto with pres | intros mode].
  apply preserves_bind; [auto with pres | intros mode'].
  auto with pres.
Qed.

Lemma wf_set_communication_delay delay :
  preserves wf (set_communication_delay delay).
Proof.
  intros s [Hd Hr Hl Hq]. split; simpl; try assumption.
  destruct (Qle_bool delay 0) eqn:Hle; [apply Qle_refl|].
  apply Qlt_le_weak, Qnot_le_lt. intros H.
  apply Qle_bool_iff in H. congruence.
Qed.

Lemma wf_set_bus_availability available :
  preserves wf (set_bus_availability available).
Proof. apply wf_modify_other; reflexivity. Qed.

(** Every state that a constructed object can reach is well formed. *)
Lemma reachable_wf s : reachable s -> wf s.
Proof.
  induction 1 as [addr | c s Hreach IH].
  - apply (wf_new OK).
  - destruct c; simpl.
    + apply wf_write_register, IH.
    + apply wf_read_register, IH.
    + apply wf_read_registers_burst, IH.
    + apply wf_write_registers_burst, IH.
    + apply (wf_push_sample_to_fifo OK), IH.
    + apply (wf_read_fifo_samples OK), IH.
    + apply wf_get_device_status, IH.
    + apply wf_set_communication_delay, IH.
    + apply wf_set_bus_availability, IH.
Qed.

End Reachable.

(** ** Addresses outside the register map *)

Section UnknownAddress.
Context `{RM : RegisterMap}.
Hypothesis OK : RegisterMapOK.

(** C2: in every reachable state, for an address that is not a key of the
    default table, [write_register] returns False whatever the value and
    [read_register] returns None; each adds one to the error counter and
    leaves the register dictionary as it was, with no cell at that
    address. *)
Theorem unknown_address_rejected (s : I2CProtocolSimulator)
    (register value : Z) :
  reachable s ->
  ~ known register ->
  let w := write_register register value s in
  let r := read_register register s in
  w.1 = false /\ registers w.2 = registers s /\ errors w.2 = errors s + 1 /\
  r.1 = None /\ registers r.2 = registers s /\ errors r.2 = errors s + 1 /\
  registers s !! register = None.
Proof.
  intros Hreach Hunknown w r.
  pose proof (reachable_wf OK s Hreach) as Hwf.
  assert (Hnot : register ∉ dom (registers s))
    by (rewrite (wf_dom s Hwf); exact Hunknown).
  assert (Hin : dict_in register (registers s) = false)
    by (apply dict_in_false, Hnot).
  subst w r. unfold write_register, read_register. rewrite Hin.
  destruct (i2c_bus_available s); simpl; repeat split;
    apply not_elem_of_dom, Hnot.
Qed.

End UnknownAddress.

(** ** Sample-rate decode *)





Section SampleRate.
Context `{RM : RegisterMap}.
Hypothesis OK : RegisterMapOK.


End SampleRate.

(** ** Reading the FIFO data register *)


Section FifoData.
Context `{RM : RegisterMap}.
Hypothesis OK : RegisterMapOK.

Lemma handle_fifo_data_read_no_record s :
  fifo_buffer s = [] -> _handle_fifo_data_read s = (Ret 0, s).
Proof.
  intros Hbuf. unfold _handle_fifo_data_read.
  rewrite bind_run. unfold gets at 1. cbv iota. rewrite Hbuf. reflexivity.
Qed.






End FifoData.

(** ** Burst operations *)


Section Burst.
Context `{RM : RegisterMap}.
Hypothesis OK : RegisterMapOK.






End Burst.

(** ** The theorems on the chip's register map *)

Lemma chip_register_map_ok : RegisterMapOK.
Proof.
  split.
  - apply (bool_decide_unpack _). vm_compute. reflexivity.
  - apply (bool_decide_unpack _). vm_compute. reflexivity.
Qed.



(** The 37 records of [test_fifo_overflow]. *)
Lemma fifo_overflow_keeps_newest_witness :
  let records := map (fun i => (10000 + i, 9500 + i)) (seqZ 0 37) in
  exists s',
    push_all records i2c = (Ret tt, s') /\
    length (fifo_buffer s') = 32%nat /\
    registers s' !! REG_OVF_COUNTER = Some 5.
Proof.
  intros records.
  destruct (proj1 (fifo_overflow_keeps_newest chip_register_map_ok)
              i2c records (wf_new chip_register_map_ok 0x57)
              eq_refl eq_refl eq_refl)
    as (s' & Hrun & _ & Hlen & Hovf).
  exists s'. split; [exact Hrun|]. split; [exact Hlen | exact Hovf].
Defined.

Lemma sample_round_trip_witness :
  exists s1 s2,
    push_sample_to_fifo 10000 9500 i2c = (Ret tt, s1) /\
    read_fifo_samples 1 s1 = (Ret [(10000, 9500)], s2).
Proof.
  destruct (sample_round_trip chip_register_map_ok i2c 10000 9500
              (wf_new chip_register_map_ok 0x57) eq_refl)
    as (s1 & s2 & Hpush & _ & _ & _ & Hread).
  exists s1, s2. split; [exact Hpush|].
  apply Hread; lia.
Defined.

(** The scenario of [test_fifo_operations]. *)
Lemma fifo_round_trip_witness :
  exists s1 s2 s3 status,
    push_sample_to_fifo 10000 9500 i2c = (Ret tt, s1) /\
    push_sample_to_fifo 11000 10500 s1 = (Ret tt, s2) /\
    read_fifo_samples 2 s2 = (Ret [(10000, 9500); (11000, 10500)], s3) /\
    fifo_buffer s3 = [] /\
    get_device_status s3 = (Ret status, s3) /\
    status_fifo_samples status = 0.
Proof.
  exact (proj1 (fifo_round_trip chip_register_map_ok)
           i2c (wf_new chip_register_map_ok 0x57) eq_refl).
Defined.

(** C7 as stated fails: with an almost-full threshold of 15 in the
    FIFO-config register, one push into the empty FIFO leaves a length of 1,
    below the threshold, and bit 4 of the interrupt status is set all the
    same. *)
Lemma almost_full_bit_set_below_threshold :
  let s := (write_register REG_FIFO_CONFIG 0x0F i2c).2 in
  exists s' st cfg,
    push_sample_to_fifo 10000 9500 s = (Ret tt, s') /\
    registers s' !! REG_INTR_STATUS_1 = Some st /\
    registers s' !! REG_FIFO_CONFIG = Some cfg /\
    ~ (Z.testbit st 4 = true <->
       Z.land cfg 0x0F <= Z.of_nat (length (fifo_buffer s'))).
Proof.
  intros s.
  exists (push_sample_to_fifo 10000 9500 s).2, 16, 15.
  split; [vm_compute; reflexivity|].
  split; [vm_compute; reflexivity|].
  split; [vm_compute; reflexivity|].
  intros [Hset _]. specialize (Hset eq_refl). vm_compute in Hset.
  apply Hset. reflexivity.
Qed.

Lemma push_sets_almost_full_bit_witness :
  let s := (write_register REG_FIFO_CONFIG 0x0F i2c).2 in
  exists s' st,
    push_sample_to_fifo 10000 9500 s = (Ret tt, s') /\
    registers s' !! REG_INTR_STATUS_1 = Some st /\
    Z.testbit st 4 = true.
Proof.
  intros s.
  exact (proj1 (push_sets_almost_full_bit chip_register_map_ok s 10000 9500
                  (wf_write_register chip_register_map_ok _ _ _
                     (wf_new chip_register_map_ok 0x57)))).
Defined.

(** An address between the SpO2 configuration and the LED amplitudes. *)
Lemma unknown_address_rejected_witness :
  ~ known 0x0B /\
  (write_register 0x0B 0x55 i2c).1 = false /\
  (read_register 0x0B i2c).1 = None.
Proof.
  assert (Hunknown : ~ known 0x0B) by (apply dict_in_false; reflexivity).
  split; [exact Hunknown|].
  destruct (unknown_address_rejected chip_register_map_ok i2c 0x0B 0x55
              (reachable_new 0x57) Hunknown)
    as (Hw & _ & _ & Hr & _).
  split; [exact Hw | exact Hr].
Defined.




(** ** A delay that [time.sleep] refuses

    With a delay of 10^10 seconds a single write fails and only counts an
    error, and so does a burst read of 10^13 registers at the delay of a
    new object. *)
Example sleep_overflow_write_fails :
  let s := (set_communication_delay (inject_Z (10 ^ 10)) i2c).2 in
  write_register REG_LED1_PA 0x30 s = (false, with_errors 1 s).
Proof. vm_compute. reflexivity. Qed.

Example sleep_overflow_burst_read_fails :
  read_registers_burst 0x0A (10 ^ 13) i2c = (None, with_errors 1 i2c).
Proof. vm_compute. reflexivity. Qed.

(** * Further properties of [I2CProtocolSimulator] *)

Lemma land_byte_range (v mask : Z) : 0 <= mask <= 255 -> 0 <= Z.land v mask <= 255.
Proof.
  intros Hm.
  assert (Hmask : Z.land mask (Z.ones 8) = mask)
    by (rewrite Z.land_ones by lia; apply Z.mod_small; change (2 ^ 8) with 256; lia).
  replace (Z.land v mask) with (Z.land (Z.land v mask) (Z.ones 8))
    by (rewrite <- Z.land_assoc, Hmask; reflexivity).
  rewrite Z.land_ones by lia.
  pose proof (Z.mod_pos_bound (Z.land v mask) (2 ^ 8) eq_refl) as Hb.
  change (2 ^ 8) with 256 in *. lia.
Qed.

Section SingleAccess.
Context `{RM : RegisterMap}.
Hypothesis OK : RegisterMapOK.







End SingleAccess.

(** ** Configuration writes and the status report *)

Lemma py_bool_land_pow2 (v k : Z) :
  0 <= k -> py_bool (Z.land v (2 ^ k)) = Z.testbit v k.
Proof.
  intros Hk. unfold py_bool.
  destruct (Z.testbit v k) eqn:Hbit.
  - destruct (Z.eqb_spec (Z.land v (2 ^ k)) 0) as [Hz|Hnz]; [|reflexivity].
    assert (Hb : Z.testbit (Z.land v (2 ^ k)) k = true)
      by (rewrite Z.land_spec, Hbit, Z.pow2_bits_true by lia; reflexivity).
    rewrite Hz, Z.bits_0 in Hb. discriminate.
  - assert (Hz : Z.land v (2 ^ k) = 0).
    { apply Z.bits_inj'. intros n Hn.
      rewrite Z.land_spec, Z.bits_0, Z.pow2_bits_eqb by lia.
      destruct (Z.eqb_spec k n) as [<-|Hne];
        [rewrite Hbit; reflexivity | apply andb_false_r]. }
    rewrite Hz. reflexivity.
Qed.

Lemma averaging_map_decode (average_bits : Z) :
  0 <= average_bits < 8 ->
  dict_get averaging_map average_bits 1 =
  if average_bits <=? 5 then 2 ^ average_bits else 1.
Proof.
  intros H.
  assert (Hcases : average_bits = 0 \/ average_bits = 1 \/ average_bits = 2 \/
                   average_bits = 3 \/ average_bits = 4 \/ average_bits = 5 \/
                   average_bits = 6 \/ average_bits = 7) by lia.
  destruct Hcases as [->|[->|[->|[->|[->|[->|[->| ->]]]]]]]; reflexivity.
Qed.

Lemma land_3_bits_range (v : Z) : 0 <= Z.land v 0x07 < 8.
Proof.
  change 0x07 with (Z.ones 3). rewrite Z.land_ones by lia.
  apply Z.mod_pos_bound. reflexivity.
Qed.

Section Configuration.
Context `{RM : RegisterMap}.
Hypothesis OK : RegisterMapOK.





End Configuration.

(** ** Burst reads and writes, cell by cell *)

Section BurstCells.
Context `{RM : RegisterMap}.
Hypothesis OK : RegisterMapOK.












End BurstCells.

(** ** The FIFO pointers after pushes *)

Section FifoPointers.
Context `{RM : RegisterMap}.
Hypothesis OK : RegisterMapOK.




End FifoPointers.

(** * The device model *)

Lemma get_sample_rate_Some `{RM : RegisterMap}
    (device_registers : gmap Z Z) (spo2_config : Z) :
  device_registers !! REG_SPO2_CONFIG = Some spo2_config ->
  get_sample_rate device_registers =
  Ret (dict_get sample_rates (Z.land (Z.shiftr spo2_config 2) 0x07) 100).
Proof. intros H. unfold get_sample_rate. rewrite H. reflexivity. Qed.

Module DeviceFacts.
Import Device.

(** Unfolding of the device monad's operations. *)
Ltac dunfold :=
  unfold mbind, D_bind, mret, D_ret, set_reg, gets, modify, raise in *.

Lemma device_bind_run {A B : Type} (m : D A) (k : A -> D B) d :
  (m ≫= k) d =
  match m d with
  | (Ret a, d') => k a d'
  | (Raise e, d') => (Raise e, d')
  end.
Proof. reflexivity. Qed.

Lemma device_bind_ret {A B : Type} (m : D A) (k : A -> D B) d a d' :
  m d = (Ret a, d') -> (m ≫= k) d = k a d'.
Proof. intros E. rewrite device_bind_run, E. reflexivity. Qed.

Lemma device_get_reg_Some (k v : Z) d :
  registers d !! k = Some v -> get_reg k d = (Ret v, d).
Proof. intros E. unfold get_reg. rewrite E. reflexivity. Qed.

Section DevicePreserves.
Context (P : MAX30102Device -> Prop).

Lemma device_preserves_ret {A : Type} (a : A) : preserves P (mret a).
Proof. intros d H. exact H. Qed.

Lemma device_preserves_gets {A : Type} (f : MAX30102Device -> A) :
  preserves P (gets f).
Proof. intros d H. exact H. Qed.

Lemma device_preserves_get_reg (k : Z) : preserves P (get_reg k).
Proof. intros d H. unfold get_reg. destruct (registers d !! k); exact H. Qed.

Lemma device_preserves_index {A : Type} (l : list A) (i : Z) :
  preserves P (index l i).
Proof. intros d H. unfold index. destruct (py_getitem l i); exact H. Qed.

Lemma device_preserves_bind {A B : Type} (m : D A) (k : A -> D B) :
  preserves P m -> (forall a, preserves P (k a)) -> preserves P (m ≫= k).
Proof.
  intros Hm Hk d H. rewrite device_bind_run.
  specialize (Hm d H). destruct (m d) as [[a|e] d']; simpl in Hm.
  - apply Hk, Hm.
  - exact Hm.
Qed.

(** The continuation of [gets f] runs on the state [f] was read from. *)
Lemma device_preserves_gets_bind {A B : Type} (f : MAX30102Device -> A)
    (k : A -> D B) :
  (forall d, P d -> P (k (f d) d).2) -> preserves P (gets f ≫= k).
Proof. intros Hk d H. apply Hk, H. Qed.

(** The continuation of [get_reg r] runs on a state that holds the value. *)
Lemma device_preserves_get_reg_bind {B : Type} (r : Z) (k : Z -> D B) :
  (forall d v, P d -> registers d !! r = Some v -> P (k v d).2) ->
  preserves P (get_reg r ≫= k).
Proof.
  intros Hk d H. rewrite device_bind_run. unfold get_reg.
  destruct (registers d !! r) as [v|] eqn:Hv; [apply Hk; assumption | exact H].
Qed.

Lemma device_preserves_for_each {A B : Type} (l : list A)
    (body : B -> A -> D B) :
  (forall acc x, preserves P (body acc x)) ->
  forall acc, preserves P (for_each l acc body).
Proof.
  intros Hbody. induction l as [|x l IH]; intros acc; simpl.
  - apply device_preserves_ret.
  - apply device_preserves_bind; [apply Hbody | intros acc'; apply IH].
Qed.

End DevicePreserves.

Create HintDb dpres.
#[local] Hint Resolve device_preserves_ret device_preserves_gets
  device_preserves_get_reg device_preserves_index : dpres.

Section DeviceInvariant.
Context `{RM : RegisterMap}.
Hypothesis OK : RegisterMapOK.

Lemma device_wf_lookup d (r : Z) : wf d -> known r -> is_Some (registers d !! r).
Proof.
  intros [Hd _ _] Hk. apply elem_of_dom. rewrite Hd. exact Hk.
Qed.

Lemma device_wf_set_reg (k v : Z) : known k -> preserves wf (set_reg k v).
Proof.
  intros Hk d [Hd Hr Hl]. split; simpl; try assumption.
  rewrite dom_insert_known; [exact Hd | rewrite Hd; exact Hk].
Qed.

Lemma device_wf_modify_other (f : MAX30102Device -> MAX30102Device) :
  (forall d, registers (f d) = registers d) ->
  (forall d, fifo_buffer (f d) = fifo_buffer d) ->
  preserves wf (modify f).
Proof.
  intros Hr Hb d [? ? ?].
  split; simpl; [rewrite Hr | rewrite Hb | rewrite Hb]; assumption.
Qed.

Lemma device_wf_update_fifo_pointers : preserves wf _update_fifo_pointers.
Proof.
  unfold _update_fifo_pointers.
  apply device_preserves_bind; [auto with dpres | intros buf].
  apply device_preserves_bind;
    [apply device_wf_set_reg, (known_FIFO_WR_PTR OK) | intros _].
  destruct (0 <? _);
    (apply device_preserves_bind; [auto with dpres | intros st]);
    apply device_wf_set_reg, (known_INTR_STATUS_1 OK).
Qed.

Lemma device_wf_handle_reset : preserves wf _handle_reset.
Proof.
  unfold _handle_reset.
  apply device_preserves_bind.
  { intros d [Hd Hr Hl]. split; simpl; done. }
  intros _. apply device_preserves_bind.
  { intros d [Hd Hr Hl]. split; simpl; done. }
  intros _. apply device_preserves_bind;
    [apply device_wf_modify_other; reflexivity | intros _].
  apply device_preserves_bind; [apply device_wf_update_fifo_pointers | intros _].
  apply device_wf_modify_other; reflexivity.
Qed.

Lemma device_wf_write_register register value :
  preserves wf (write_register register value).
Proof.
  unfold write_register.
  destruct (dict_in register DEFAULT_REGISTER_VALUES) eqn:Hin; simpl negb;
    cbv iota; [|auto with dpres].
  assert (Hk : known register) by (apply dict_in_true, Hin).
  apply device_preserves_bind.
  - destruct (register =? REG_MODE_CONFIG).
    + destruct (py_bool (Z.land value 64)).
      * apply device_preserves_bind;
          [apply device_wf_handle_reset | auto with dpres].
      * apply device_preserves_bind; [|auto with dpres].
        destruct (py_bool _); [|auto with dpres].
        apply device_wf_modify_other; reflexivity.
    + destruct (register =? REG_FIFO_CONFIG); [|auto with dpres].
      apply device_preserves_bind; [|auto with dpres].
      unfold _update_fifo_config.
      apply device_preserves_bind; intros;
        apply device_wf_modify_other; reflexivity.
  - intros [b|]; [auto with dpres|].
    apply device_preserves_bind; [apply device_wf_set_reg, Hk | auto with dpres].
Qed.

Lemma device_wf_read_fifo_data : preserves wf _read_fifo_data.
Proof.
  unfold _read_fifo_data.
  apply device_preserves_bind; [auto with dpres | intros buf].
  destruct buf as [|b buf]; [auto with dpres|].
  apply device_preserves_bind; [auto with dpres | intros rd].
  apply device_preserves_bind; [auto with dpres | intros wr].
  apply device_preserves_bind.
  { destruct (rd =? wr); [|auto with dpres].
    apply device_preserves_bind; auto with dpres. }
  intros [|]; [auto with dpres|].
  destruct (_ <? _); [|auto with dpres].
  apply device_preserves_bind; [auto with dpres | intros sample].
  apply device_preserves_bind; [auto with dpres | intros value].
  apply device_preserves_bind;
    [apply device_wf_set_reg, (known_FIFO_RD_PTR OK) | intros _].
  auto with dpres.
Qed.

Lemma device_wf_read_register register :
  preserves wf (read_register register).
Proof.
  unfold read_register.
  destruct (register =? REG_FIFO_DATA).
  - apply device_preserves_bind;
      [apply device_wf_read_fifo_data | auto with dpres].
  - apply device_preserves_bind; [auto with dpres | intros regs].
    destruct (negb _); [auto with dpres|].
    apply device_preserves_bind; auto with dpres.
Qed.

Lemma device_wf_read_fifo_burst count : preserves wf (read_fifo_burst count).
Proof.
  unfold read_fifo_burst.
  apply device_preserves_bind; [auto with dpres | intros buf].
  apply device_preserves_for_each. intros data i.
  unfold read_fifo_burst_step.
  apply device_preserves_gets_bind. intros d Hwf.
  destruct (fifo_buffer d) as [|sample rest] eqn:Hbuf; [exact Hwf|].
  assert (Hwf1 : wf (with_fifo_buffer rest d)).
  { destruct Hwf as [Hd Hr Hl]. rewrite Hbuf in Hr, Hl.
    split; simpl; [exact Hd | by inversion Hr | simpl in Hl; lia]. }
  rewrite device_bind_run. unfold modify at 1. cbv iota.
  match goal with
  | |- wf (?m ?d1).2 => cut (preserves wf m); [intros Hp; exact (Hp d1 Hwf1)|]
  end.
  apply device_preserves_bind;
    [apply device_wf_update_fifo_pointers | auto with dpres].
Qed.

End DeviceInvariant.

Section DeviceFifo.
Context `{RM : RegisterMap}.
Hypothesis OK : RegisterMapOK.

Lemma device_update_fifo_pointers_run d st :
  registers d !! REG_INTR_STATUS_1 = Some st ->
  let n := Z.of_nat (length (fifo_buffer d)) in
  _update_fifo_pointers d =
  (Ret tt,
   with_registers
     (<[REG_INTR_STATUS_1 :=
          if 0 <? n then Z.lor st 0x10 else Z.land st (Z.lnot 0x10)]>
        (<[REG_FIFO_WR_PTR := (n * 6) mod (fifo_size * 6)]> (registers d)))
     d).
Proof.
  intros Hst n.
  assert (Hwi : REG_FIFO_WR_PTR <> REG_INTR_STATUS_1)
    by (apply (named_neq OK 1 0); done).
  unfold _update_fifo_pointers. dunfold. unfold get_reg.
  cbn [registers with_registers]. fold n.
  destruct (0 <? n); cbn [registers with_registers];
    rewrite (lookup_insert_ne _ _ _ _ Hwi), Hst; reflexivity.
Qed.

Lemma device_push_sample_to_fifo_run d red ir st ovf :
  registers d !! REG_INTR_STATUS_1 = Some st ->
  registers d !! REG_OVF_COUNTER = Some ovf ->
  let full := fifo_size <=? Z.of_nat (length (fifo_buffer d)) in
  let buf := (if full then tail (fifo_buffer d) else fifo_buffer d)
             ++ [pack_sample red ir] in
  let n := Z.of_nat (length buf) in
  let regs := if full
              then <[REG_OVF_COUNTER := Z.land (ovf + 1) 0x1F]> (registers d)
              else registers d in
  push_sample_to_fifo red ir d =
  (Ret tt,
   with_sample_count (sample_count d + 1)
     (with_registers
        (<[REG_INTR_STATUS_1 := Z.lor st 0x10]>
           (<[REG_FIFO_WR_PTR := (n * 6) mod (fifo_size * 6)]> regs))
        (with_fifo_buffer buf d))).
Proof.
  intros Hst Hovf full buf n regs.
  assert (Hoi : REG_OVF_COUNTER <> REG_INTR_STATUS_1)
    by (apply (named_neq OK 2 0); done).
  unfold push_sample_to_fifo.
  rewrite device_bind_run. unfold gets at 1. cbv iota beta.
  set (d1 := with_fifo_buffer buf (with_registers regs d)).
  assert (Hst1 : registers d1 !! REG_INTR_STATUS_1 = Some st).
  { subst d1 regs. simpl.
    destruct full; [rewrite lookup_insert_ne by done|]; done. }
  pose proof (device_update_fifo_pointers_run d1 st Hst1) as Hupd.
  cbv zeta in Hupd.
  assert (Hlen : (0 <? Z.of_nat (length (fifo_buffer d1))) = true).
  { apply Z.ltb_lt. subst d1 buf. simpl. rewrite length_app. simpl. lia. }
  rewrite Hlen in Hupd.
  assert (Hfirst :
    (if fifo_size <=? Z.of_nat (length (fifo_buffer d))
     then (ovf0 ← get_reg REG_OVF_COUNTER;
           set_reg REG_OVF_COUNTER (Z.land (ovf0 + 1) 31);;
           match fifo_buffer d with
           | [] => mret ()
           | _ :: rest => modify (with_fifo_buffer rest)
           end)
     else mret ()) d =
    (Ret tt, if full then with_fifo_buffer (tail (fifo_buffer d))
                            (with_registers regs d)
             else d)).
  { subst regs full.
    destruct (fifo_size <=? Z.of_nat (length (fifo_buffer d))).
    - dunfold. rewrite (device_get_reg_Some _ _ _ Hovf).
      destruct d as [r b sc t po rp av fr]. simpl.
      destruct b; reflexivity.
    - reflexivity. }
  rewrite (device_bind_ret _ _ _ _ _ Hfirst).
  rewrite device_bind_run. unfold modify at 1. cbv iota.
  replace (with_fifo_buffer _ _) with d1.
  2:{ subst d1 buf regs. unfold pack_sample, sample_bytes.
      destruct full; destruct d; reflexivity. }
  rewrite (device_bind_ret _ _ _ _ _ Hupd).
  reflexivity.
Qed.

(** One push on a well-formed device: it returns, and this is the device
    it leaves. *)
Lemma device_push_sample_to_fifo_spec d red ir ovf :
  wf d ->
  registers d !! REG_OVF_COUNTER = Some ovf ->
  let full := fifo_size <=? Z.of_nat (length (fifo_buffer d)) in
  exists d',
    push_sample_to_fifo red ir d = (Ret tt, d') /\
    wf d' /\
    fifo_buffer d' =
      (if full then tail (fifo_buffer d) else fifo_buffer d)
      ++ [pack_sample red ir] /\
    registers d' !! REG_OVF_COUNTER =
      Some (if full then Z.land (ovf + 1) 0x1F else ovf) /\
    sample_count d' = sample_count d + 1 /\
    power_on d' = power_on d /\
    (exists st, registers d' !! REG_INTR_STATUS_1 = Some st /\
                Z.testbit st 4 = true).
Proof.
  intros Hwf Hovf full.
  destruct (device_wf_lookup d _ Hwf (known_INTR_STATUS_1 OK)) as [st Hst].
  pose proof (device_push_sample_to_fifo_run d red ir st ovf Hst Hovf) as Hrun.
  cbv zeta in Hrun. fold full in Hrun.
  assert (Hio : REG_INTR_STATUS_1 <> REG_OVF_COUNTER)
    by (apply (named_neq OK 0 2); done).
  assert (Hwo : REG_FIFO_WR_PTR <> REG_OVF_COUNTER)
    by (apply (named_neq OK 1 2); done).
  destruct Hwf as [Hd Hr Hl].
  eexists. split; [exact Hrun|].
  cbn [registers fifo_buffer sample_count power_on with_registers
       with_fifo_buffer with_sample_count].
  split; [split|].
  - cbn [registers with_registers with_fifo_buffer with_sample_count].
    match goal with
    | |- dom (<[_ := _]> (<[_ := ?x]> ?r)) = _ =>
      assert (Hd1 : dom r = dom DEFAULT_REGISTER_VALUES);
      [|assert (Hd2 : dom (<[REG_FIFO_WR_PTR := x]> r)
                      = dom DEFAULT_REGISTER_VALUES)]
    end.
    + destruct full; [rewrite dom_insert_known|]; try exact Hd.
      rewrite Hd. apply (known_OVF_COUNTER OK).
    + rewrite dom_insert_known; [exact Hd1|].
      rewrite Hd1. apply (known_FIFO_WR_PTR OK).
    + rewrite dom_insert_known; [exact Hd2|].
      rewrite Hd2. apply (known_INTR_STATUS_1 OK).
  - cbn [fifo_buffer with_registers with_fifo_buffer with_sample_count].
    apply Forall_app. split; [|repeat constructor].
    destruct full; [|exact Hr].
    destruct (fifo_buffer d); [constructor | by inversion Hr].
  - cbn [fifo_buffer with_registers with_fifo_buffer with_sample_count].
    rewrite length_app. simpl length. subst full. unfold fifo_size in *.
    destruct (Z.leb_spec 32 (Z.of_nat (length (fifo_buffer d)))) as [Hf|Hf].
    + destruct (fifo_buffer d); simpl in *; lia.
    + lia.
  - split; [reflexivity|]. split.
    { rewrite lookup_insert_ne, lookup_insert_ne by done.
      destruct full; [apply lookup_insert_eq | exact Hovf]. }
    split; [reflexivity|]. split; [reflexivity|].
    eexists. split; [apply lookup_insert_eq | apply testbit_lor_16].
Qed.

Lemma device_wf_push_sample_to_fifo red ir :
  preserves wf (push_sample_to_fifo red ir).
Proof.
  intros d Hwf.
  destruct (device_wf_lookup d _ Hwf (known_OVF_COUNTER OK)) as [ovf Hovf].
  destruct (device_push_sample_to_fifo_spec d red ir ovf Hwf Hovf)
    as (d' & Hrun & Hwf' & _).
  rewrite Hrun. exact Hwf'.
Qed.

Lemma device_new_returns : new.1 = Ret tt /\ wf new.2.
Proof.
  unfold new, initialize_device.
  assert (Hwf : wf fresh) by (split; simpl; done).
  destruct (device_wf_lookup fresh _ Hwf (known_INTR_STATUS_1 OK)) as [st Hst].
  rewrite (device_update_fifo_pointers_run fresh st Hst). split; [reflexivity|].
  pose proof (device_wf_update_fifo_pointers OK fresh Hwf) as H.
  rewrite (device_update_fifo_pointers_run fresh st Hst) in H. exact H.
Qed.

(** Every state that a constructed device can reach is well formed. *)
Lemma device_reachable_wf d : reachable d -> wf d.
Proof.
  induction 1 as [Hnew | c d Hreach IH].
  - apply device_new_returns.
  - destruct c; simpl.
    + apply (device_wf_write_register OK), IH.
    + apply (device_wf_read_register OK), IH.
    + apply (device_wf_read_fifo_burst OK), IH.
    + apply device_wf_push_sample_to_fifo, IH.
    + unfold get_status.
      match goal with
      | |- wf (?m d).2 => cut (preserves wf m); [intros Hp; exact (Hp d IH)|]
      end.
      apply device_preserves_bind; [auto with dpres | intros d0].
      apply device_preserves_bind; auto with dpres.
    + exact IH.
Qed.

End DeviceFifo.

(** Proofs that a device method keeps a property: through the binds,
    branches and loops down to the leaves, which [leaf] must solve. *)
Ltac dpres_with leaf :=
  repeat first
    [ leaf
    | apply device_preserves_ret
    | apply device_preserves_gets
    | apply device_preserves_get_reg
    | apply device_preserves_index
    | apply device_preserves_bind; [|intros ?]
    | apply device_preserves_for_each; intros ? ?
    | match goal with
      | |- preserves _ (if ?b then _ else _) => destruct b eqn:?
      | |- preserves _ (match ?x with _ => _ end) => destruct x eqn:?
      | |- preserves _ (let _ := _ in _) => cbv zeta
      end ].

Lemma land_shiftr_low_byte (v : Z) :
  Z.land (Z.shiftr (Z.land v 0xFF) 2) 0x07 = Z.land (Z.shiftr v 2) 0x07.
Proof.
  change 0xFF with (Z.ones 8). change 0x07 with (Z.ones 3).
  apply Z.bits_inj'. intros n Hn.
  rewrite !Z.land_spec, !Z.shiftr_spec, Z.land_spec by lia.
  rewrite !Z.testbit_ones_nonneg by lia.
  destruct (Z.ltb_spec n 3) as [H3|H3]; [|rewrite !andb_false_r; reflexivity].
  destruct (Z.ltb_spec (n + 2) 8); [|lia].
  rewrite !andb_true_r. reflexivity.
Qed.

Section DeviceRegisters.
Context `{RM : RegisterMap}.
Hypothesis OK : RegisterMapOK.

Lemma device_read_register_plain d register v :
  registers d !! register = Some v ->
  register <> REG_FIFO_DATA ->
  read_register register d = (Ret (Some v), d).
Proof.
  intros Hv Hne. apply Z.eqb_neq in Hne.
  unfold read_register, dict_in, get_reg. dunfold.
  rewrite Hne, Hv. simpl. rewrite Hv. reflexivity.
Qed.

Lemma device_write_register_run d register value :
  known register ->
  ~ (register = REG_MODE_CONFIG /\ Z.land value 0x40 <> 0) ->
  exists d',
    write_register register value d = (Ret true, d') /\
    registers d' = <[register := Z.land value 0xFF]> (registers d) /\
    fifo_buffer d' = fifo_buffer d /\
    sample_count d' = sample_count d /\
    power_on d' =
      (if (register =? REG_MODE_CONFIG) && Z.testbit value 7 then false
       else power_on d).
Proof.
  intros Hk Hnoreset.
  assert (Hin : dict_in register DEFAULT_REGISTER_VALUES = true)
    by (apply dict_in_true, Hk).
  pose proof (py_bool_land_pow2 value 7 ltac:(lia)) as Hbit.
  change (2 ^ 7) with 128 in Hbit.
  unfold write_register, _update_fifo_config. rewrite Hin. simpl negb. cbv iota.
  dunfold.
  destruct (Z.eqb_spec register REG_MODE_CONFIG) as [->|Hm].
  - destruct (py_bool (Z.land value 64)) eqn:Hreset.
    { exfalso. apply Hnoreset. split; [reflexivity|].
      unfold py_bool in Hreset. intros Hz. rewrite Hz in Hreset. discriminate. }
    rewrite Hbit, andb_true_l.
    destruct (Z.testbit value 7); eexists; repeat split.
  - rewrite andb_false_l.
    destruct (register =? REG_FIFO_CONFIG); eexists; repeat split.
Qed.

(** X10: on the device, a write to a known register other than the
    FIFO-data register, that does not ask for a reset, stores the low byte
    of the value (the mode register included: the device does not mask its
    reserved bits), and a read of the register returns that byte; a write
    to an address that is not a key of the default table returns False and
    changes nothing, and a read of such an address, the FIFO-data address
    apart, returns None and changes nothing. *)
Theorem device_write_then_read (d : MAX30102Device) (register value : Z) :
  wf d ->
  register <> REG_FIFO_DATA ->
  (known register ->
   ~ (register = REG_MODE_CONFIG /\ Z.land value 0x40 <> 0) ->
   exists d',
     write_register register value d = (Ret true, d') /\
     registers d' = <[register := Z.land value 0xFF]> (registers d) /\
     read_register register d' = (Ret (Some (Z.land value 0xFF)), d')) /\
  (~ known register ->
   write_register register value d = (Ret false, d) /\
   read_register register d = (Ret None, d)).
Proof.
  intros Hwf Hfd. split.
  - intros Hk Hnoreset.
    destruct (device_write_register_run d register value Hk Hnoreset)
      as (d' & Hrun & Hregs & _).
    exists d'. split; [exact Hrun|]. split; [exact Hregs|].
    apply device_read_register_plain; [|exact Hfd].
    rewrite Hregs. apply lookup_insert_eq.
  - intros Hunknown.
    assert (Hin : dict_in register DEFAULT_REGISTER_VALUES = false)
      by (apply dict_in_false, Hunknown).
    assert (Hin' : dict_in register (registers d) = false).
    { apply dict_in_false. rewrite (wf_dom d Hwf). exact Hunknown. }
    apply Z.eqb_neq in Hfd.
    unfold write_register, read_register. rewrite Hin, Hfd. dunfold.
    rewrite Hin'. split; reflexivity.
Qed.

(** X11: on the device, a mode write with bit 7 set and the reset bit
    clear turns [power_on] off, and no method turns it on again: once
    [power_on] is False it is False after every sequence of calls, a write
    of a mode value without the shutdown bit and a reset included. *)
Theorem device_power_never_returns :
  (forall d value,
     Z.land value 0x40 = 0 ->
     Z.testbit value 7 = true ->
     power_on (write_register REG_MODE_CONFIG value d).2 = false) /\
  (forall calls d,
     power_on d = false -> power_on (after_all calls d) = false).
Proof.
  split.
  - intros d value Hnoreset Hbit.
    assert (Hnr : ~ (REG_MODE_CONFIG = REG_MODE_CONFIG
                     /\ Z.land value 0x40 <> 0))
      by (intros [_ H]; contradiction).
    destruct (device_write_register_run d REG_MODE_CONFIG value
                (known_MODE_CONFIG OK) Hnr) as (d' & Hrun & _ & _ & _ & Hp).
    rewrite Hrun. simpl. rewrite Hp, Z.eqb_refl, Hbit. reflexivity.
  - set (P := fun d : MAX30102Device => power_on d = false).
    assert (Hleaf : forall f : MAX30102Device -> MAX30102Device,
              (forall d, power_on (f d) = power_on d) ->
              preserves P (modify f)).
    { intros f Hf d Hd. unfold P in *. simpl. rewrite Hf. exact Hd. }
    assert (Hset : forall k v, preserves P (set_reg k v))
      by (intros k v; apply Hleaf; reflexivity).
    assert (Hupd : preserves P _update_fifo_pointers).
    { unfold _update_fifo_pointers. dpres_with ltac:(apply Hset). }
    assert (Hstep : forall c d, P d -> P (after c d)).
    { intros c d Hd. destruct c; simpl.
      - revert d Hd. change (preserves P (write_register register value)).
        unfold write_register, _handle_reset, _update_fifo_config.
        dpres_with ltac:(first [ apply Hset | apply Hupd
                               | apply Hleaf; reflexivity ]).
        intros d Hd. reflexivity.
      - revert d Hd. change (preserves P (read_register register)).
        unfold read_register, _read_fifo_data.
        dpres_with ltac:(apply Hset).
      - revert d Hd. change (preserves P (read_fifo_burst count)).
        unfold read_fifo_burst, read_fifo_burst_step.
        dpres_with ltac:(first [ apply Hupd | apply Hleaf; reflexivity ]).
      - revert d Hd.
        change (preserves P (push_sample_to_fifo red_sample ir_sample)).
        unfold push_sample_to_fifo.
        dpres_with ltac:(first [ apply Hset | apply Hupd
                               | apply Hleaf; reflexivity ]).
      - revert d Hd. change (preserves P get_status).
        unfold get_status. dpres_with fail.
      - exact Hd. }
    intros calls. unfold after_all.
    induction calls as [|c calls IH]; intros d Hd; [exact Hd|].
    simpl. apply IH, Hstep, Hd.
Qed.

(** X12: on a well-formed device, a mode write with the reset bit set
    returns True and leaves the default table with the write pointer at 0
    and bit 4 of the interrupt status cleared, an empty FIFO, a sample
    count of 0 and [reset_pending] set; [power_on] keeps its value. *)
Theorem device_reset (d : MAX30102Device) (value : Z) :
  wf d ->
  Z.land value 0x40 <> 0 ->
  exists d' st,
    DEFAULT_REGISTER_VALUES !! REG_INTR_STATUS_1 = Some st /\
    write_register REG_MODE_CONFIG value d = (Ret true, d') /\
    registers d' =
      <[REG_INTR_STATUS_1 := Z.land st (Z.lnot 0x10)]>
        (<[REG_FIFO_WR_PTR := 0]> DEFAULT_REGISTER_VALUES) /\
    fifo_buffer d' = [] /\
    sample_count d' = 0 /\
    reset_pending d' = true /\
    power_on d' = power_on d.
Proof.
  intros Hwf Hreset.
  pose proof (known_INTR_STATUS_1 OK) as Hk. unfold known in Hk.
  apply elem_of_dom in Hk as [st Hst].
  assert (Hin : dict_in REG_MODE_CONFIG DEFAULT_REGISTER_VALUES = true)
    by (apply dict_in_true, (known_MODE_CONFIG OK)).
  apply Z.eqb_neq in Hreset.
  set (d1 := with_sample_count 0
               (with_fifo_buffer [] (with_registers DEFAULT_REGISTER_VALUES d))).
  assert (Hst1 : registers d1 !! REG_INTR_STATUS_1 = Some st) by exact Hst.
  pose proof (device_update_fifo_pointers_run OK d1 st Hst1) as Hupd.
  cbv zeta in Hupd. simpl in Hupd.
  eexists _, st. split; [exact Hst|]. split.
  - unfold write_register, py_bool, _handle_reset.
    rewrite Hin, Z.eqb_refl, Hreset. cbn [negb]. dunfold. cbv iota beta.
    change (with_sample_count 0
              (with_fifo_buffer []
                 (with_registers DEFAULT_REGISTER_VALUES d))) with d1.
    rewrite Hupd. reflexivity.
  - simpl. repeat split.
Qed.

(** X13: on a well-formed device, after a write of [value] to the
    SpO2-config register [get_sample_rate] returns the rate that bits 4..2
    of [value] select in the table, 100 for a pattern that is not in it. *)
Theorem device_sample_rate_after_write (d : MAX30102Device) (value : Z) :
  wf d ->
  exists d',
    write_register REG_SPO2_CONFIG value d = (Ret true, d') /\
    get_sample_rate d' =
      (Ret (dict_get sample_rates (Z.land (Z.shiftr value 2) 0x07) 100), d').
Proof.
  intros Hwf.
  assert (Hnr : ~ (REG_SPO2_CONFIG = REG_MODE_CONFIG
                   /\ Z.land value 0x40 <> 0)).
  { intros [H _]. revert H. apply (named_neq OK 7 6); done. }
  destruct (device_write_register_run d REG_SPO2_CONFIG value
              (known_SPO2_CONFIG OK) Hnr) as (d' & Hrun & Hregs & _).
  exists d'. split; [exact Hrun|].
  unfold get_sample_rate.
  rewrite (get_sample_rate_Some (registers d') (Z.land value 0xFF))
    by (rewrite Hregs; apply lookup_insert_eq).
  rewrite land_shiftr_low_byte. reflexivity.
Qed.

End DeviceRegisters.

Lemma length_concat_records (l : list (list Z)) :
  Forall (fun r => length r = 6%nat) l ->
  length (concat l) = (6 * length l)%nat.
Proof.
  induction 1 as [|r l Hr _ IH]; [reflexivity|].
  simpl. rewrite length_app, Hr, IH. lia.
Qed.

Section DeviceQueue.
Context `{RM : RegisterMap}.
Hypothesis OK : RegisterMapOK.

(** X14: on a well-formed device a run of pushes always returns; the FIFO
    then holds the last 32 of the records it held and received, in order,
    [sample_count] has grown by the number of pushes whether or not records
    were dropped, and an overflow counter that was below 32 has advanced,
    modulo 32, by the number of records that found the FIFO full. *)
Theorem device_push_all_keeps_newest (records : list (Z * Z)) : forall d,
  wf d ->
  exists d',
    push_all records d = (Ret tt, d') /\
    wf d' /\
    fifo_buffer d' =
      last_n 32 (fifo_buffer d ++ map (fun r => pack_sample r.1 r.2) records) /\
    sample_count d' = sample_count d + Z.of_nat (length records) /\
    forall ovf,
      registers d !! REG_OVF_COUNTER = Some ovf ->
      0 <= ovf < 32 ->
      registers d' !! REG_OVF_COUNTER =
        Some ((ovf + Z.max 0 (Z.of_nat (length (fifo_buffer d))
                              + Z.of_nat (length records) - 32)) mod 32).
Proof.
  induction records as [|[red ir] records IH]; intros d Hwf.
  - exists d. pose proof (wf_length d Hwf) as Hl. unfold fifo_size in Hl.
    split; [reflexivity|]. split; [exact Hwf|]. split; [|split].
    + simpl. rewrite app_nil_r, last_n_short by lia. reflexivity.
    + simpl. lia.
    + intros ovf Hovf Hrange. simpl length. rewrite Hovf. f_equal.
      rewrite Z.max_l by lia. rewrite Z.add_0_r, Z.mod_small by lia.
      reflexivity.
  - destruct (device_wf_lookup d _ Hwf (known_OVF_COUNTER OK)) as [ovf Hovf].
    destruct (device_push_sample_to_fifo_spec OK d red ir ovf Hwf Hovf)
      as (d1 & Hrun & Hwf1 & Hbuf1 & Hovf1 & Hsc1 & _).
    pose proof (wf_length d Hwf) as Hl. unfold fifo_size in Hl, Hbuf1, Hovf1.
    set (ovf1 := if 32 <=? Z.of_nat (length (fifo_buffer d))
                 then Z.land (ovf + 1) 31 else ovf) in *.
    destruct (IH d1 Hwf1) as (d' & Hrun' & Hwf' & Hbuf' & Hsc' & Hovf').
    exists d'. split; [|split; [exact Hwf'|split; [|split]]].
    + unfold push_all in *. simpl for_each.
      rewrite (device_bind_ret _ _ _ _ _ Hrun). exact Hrun'.
    + rewrite Hbuf', Hbuf1. simpl map.
      replace (fifo_buffer d ++ pack_sample red ir :: map _ records)
        with ((fifo_buffer d ++ [pack_sample red ir])
              ++ map (fun r => pack_sample r.1 r.2) records)
        by (rewrite <- app_assoc; reflexivity).
      rewrite <- (last_n_app_last_n 32 (fifo_buffer d ++ _)).
      rewrite (last_n_snoc 31) by lia.
      f_equal. f_equal.
      destruct (Z.leb_spec 32 (Z.of_nat (length (fifo_buffer d)))),
        (Nat.leb_spec 32 (length (fifo_buffer d))); try reflexivity; lia.
    + rewrite Hsc', Hsc1. simpl length. lia.
    + intros ovf0 Hovf0 Hrange.
      assert (ovf0 = ovf) by congruence. subst ovf0.
      assert (Hrange1 : 0 <= ovf1 < 32).
      { subst ovf1. destruct (_ <=? _); [|exact Hrange].
        change 31 with (Z.ones 5). rewrite Z.land_ones by lia.
        apply Z.mod_pos_bound. lia. }
      rewrite (Hovf' ovf1 Hovf1 Hrange1). f_equal.
      rewrite Hbuf1, length_app. simpl length.
      subst ovf1.
      destruct (Z.leb_spec 32 (Z.of_nat (length (fifo_buffer d)))) as [Hf|Hf].
      * assert (Hlen : length (fifo_buffer d) = 32%nat) by lia.
        destruct (fifo_buffer d) as [|b0 rest]; [discriminate|].
        simpl tail. simpl length in *.
        change 31 with (Z.ones 5). rewrite Z.land_ones by lia.
        change (2 ^ 5) with 32.
        rewrite !Z.max_r by lia.
        rewrite Zplus_mod_idemp_l. f_equal. lia.
      * f_equal. f_equal. lia.
Qed.

Lemma device_read_fifo_burst_step_spec data i d sample rest :
  wf d ->
  fifo_buffer d = sample :: rest ->
  exists d' st,
    read_fifo_burst_step data i d = (Ret (data ++ sample), d') /\
    wf d' /\
    fifo_buffer d' = rest /\
    registers d' !! REG_INTR_STATUS_1 = Some st /\
    Z.testbit st 4 = (0 <? Z.of_nat (length rest)).
Proof.
  intros Hwf Hbuf.
  set (d1 := with_fifo_buffer rest d).
  assert (Hwf1 : wf d1).
  { destruct Hwf as [Hd Hr Hl]. rewrite Hbuf in Hr, Hl.
    split; simpl; [exact Hd | by inversion Hr | simpl in Hl; lia]. }
  destruct (device_wf_lookup d1 _ Hwf1 (known_INTR_STATUS_1 OK)) as [st Hst].
  pose proof (device_update_fifo_pointers_run OK d1 st Hst) as Hupd.
  cbv zeta in Hupd.
  pose proof (device_wf_update_fifo_pointers OK d1 Hwf1) as Hwf2.
  rewrite Hupd in Hwf2. simpl in Hwf2.
  eexists _, _. split; [|split; [exact Hwf2|split; [reflexivity|split]]].
  - unfold read_fifo_burst_step.
    rewrite device_bind_run. unfold gets at 1. cbv iota. rewrite Hbuf.
    rewrite device_bind_run. unfold modify at 1. cbv iota.
    fold d1. rewrite (device_bind_ret _ _ _ _ _ Hupd). reflexivity.
  - simpl. apply lookup_insert_eq.
  - simpl.
    destruct (0 <? Z.of_nat (length rest));
      [apply testbit_lor_16 | apply testbit_land_lnot_16].
Qed.

Lemma device_read_fifo_loop_spec (l : list Z) : forall data d,
  wf d ->
  (length l <= length (fifo_buffer d))%nat ->
  exists d',
    for_each l data read_fifo_burst_step d =
      (Ret (data ++ concat (take (length l) (fifo_buffer d))), d') /\
    wf d' /\
    fifo_buffer d' = drop (length l) (fifo_buffer d) /\
    (l = [] -> d' = d) /\
    (l <> [] ->
     exists st, registers d' !! REG_INTR_STATUS_1 = Some st /\
                Z.testbit st 4 = (0 <? Z.of_nat (length (fifo_buffer d')))).
Proof.
  induction l as [|i l IH]; intros data d Hwf Hlen.
  - exists d. simpl. rewrite app_nil_r, drop_0.
    split; [reflexivity|]. split; [exact Hwf|]. split; [reflexivity|].
    split; [reflexivity | intros H; contradiction].
  - destruct (fifo_buffer d) as [|sample rest] eqn:Hbuf; [simpl in Hlen; lia|].
    destruct (device_read_fifo_burst_step_spec data i d sample rest Hwf Hbuf)
      as (d1 & st & Hstep & Hwf1 & Hbuf1 & Hst1 & Hbit1).
    destruct (IH (data ++ sample) d1 Hwf1) as (d' & Hloop & Hwf' & Hbuf' & Hnil & Hcons).
    { rewrite Hbuf1. simpl in Hlen. lia. }
    exists d'. split; [|split; [exact Hwf'|split; [|split]]].
    + simpl for_each. rewrite (device_bind_ret _ _ _ _ _ Hstep), Hloop.
      rewrite Hbuf1. simpl. rewrite <- app_assoc. reflexivity.
    + rewrite Hbuf', Hbuf1. reflexivity.
    + intros H. discriminate.
    + intros _. destruct l as [|j l].
      * rewrite (Hnil eq_refl). exists st. rewrite Hbuf1. split; assumption.
      * apply Hcons. discriminate.
Qed.

(** X15: on a well-formed device [read_fifo_burst(count)] returns the
    bytes of the [min(count, length)] oldest records, six per record and in
    order, and removes exactly those records; when it removes at least one,
    bit 4 of the interrupt status is afterwards set exactly when records
    remain, and when it removes none the device is unchanged.  A sample
    pushed into the empty FIFO comes back as its six packed bytes. *)
Theorem device_read_fifo_burst_spec (d : MAX30102Device) (count : Z) :
  wf d ->
  let k := Z.to_nat (Z.min count (Z.of_nat (length (fifo_buffer d)))) in
  (exists d',
     read_fifo_burst count d = (Ret (concat (take k (fifo_buffer d))), d') /\
     fifo_buffer d' = drop k (fifo_buffer d) /\
     length (concat (take k (fifo_buffer d))) = (6 * k)%nat /\
     (k = 0%nat -> d' = d) /\
     (k <> 0%nat ->
      exists st, registers d' !! REG_INTR_STATUS_1 = Some st /\
                 (Z.testbit st 4 = true <-> fifo_buffer d' <> []))) /\
  (forall red_sample ir_sample,
     fifo_buffer d = [] ->
     exists d1 d2,
       push_sample_to_fifo red_sample ir_sample d = (Ret tt, d1) /\
       read_fifo_burst 1 d1 = (Ret (pack_sample red_sample ir_sample), d2) /\
       fifo_buffer d2 = []).
Proof.
  intros Hwf k.
  assert (Hspec : forall d0 n, wf d0 ->
    let k0 := Z.to_nat (Z.min n (Z.of_nat (length (fifo_buffer d0)))) in
    exists d',
      read_fifo_burst n d0 = (Ret (concat (take k0 (fifo_buffer d0))), d') /\
      fifo_buffer d' = drop k0 (fifo_buffer d0) /\
      (k0 = 0%nat -> d' = d0) /\
      (k0 <> 0%nat ->
       exists st, registers d' !! REG_INTR_STATUS_1 = Some st /\
                  Z.testbit st 4 = (0 <? Z.of_nat (length (fifo_buffer d'))))).
  { intros d0 n Hwf0 k0.
    assert (Hseq : length (seqZ 0 (Z.min n (Z.of_nat (length (fifo_buffer d0)))))
                   = k0) by apply length_seqZ.
    destruct (device_read_fifo_loop_spec
                (seqZ 0 (Z.min n (Z.of_nat (length (fifo_buffer d0))))) [] d0 Hwf0)
      as (d' & Hloop & _ & Hbuf & Hnil & Hcons); [rewrite Hseq; subst k0; lia|].
    rewrite Hseq in Hloop, Hbuf. simpl app in Hloop.
    exists d'. split; [|split; [exact Hbuf|split]].
    - unfold read_fifo_burst. rewrite device_bind_run. unfold gets at 1.
      cbv iota. exact Hloop.
    - intros Hk. apply Hnil. apply length_zero_iff_nil. congruence.
    - intros Hk. apply Hcons. intros Hl. apply Hk.
      rewrite <- Hseq, Hl. reflexivity. }
  split.
  - destruct (Hspec d count Hwf) as (d' & Hrun & Hbuf & Hnil & Hcons).
    fold k in Hrun, Hbuf, Hnil, Hcons.
    exists d'. split; [exact Hrun|]. split; [exact Hbuf|]. split; [|split].
    + rewrite length_concat_records, length_take by
        (apply Forall_take, (wf_records d Hwf)).
      subst k. lia.
    + exact Hnil.
    + intros Hk. destruct (Hcons Hk) as (st & Hst & Hbit).
      exists st. split; [exact Hst|]. rewrite Hbit.
      destruct (fifo_buffer d') as [|b rest]; simpl.
      * split; [discriminate | intros H; contradiction].
      * split; [intros _; discriminate | intros _; reflexivity].
  - intros red ir Hempty.
    destruct (device_wf_lookup d _ Hwf (known_OVF_COUNTER OK)) as [ovf Hovf].
    destruct (device_push_sample_to_fifo_spec OK d red ir ovf Hwf Hovf)
      as (d1 & Hrun & Hwf1 & Hbuf1 & _).
    rewrite Hempty in Hbuf1. simpl in Hbuf1.
    destruct (Hspec d1 1 Hwf1) as (d2 & Hread & Hbuf2 & _).
    rewrite Hbuf1 in Hread, Hbuf2. simpl in Hread, Hbuf2.
    exists d1, d2. split; [exact Hrun|]. split; [exact Hread | exact Hbuf2].
Qed.

(** X16: the constructor of the device returns, and in every state the
    device can reach the register dictionary has exactly the keys of the
    default table, every FIFO record has 6 bytes and the FIFO holds at most
    32 records. *)
Theorem device_reachable_invariant :
  new.1 = Ret tt /\
  forall d,
    reachable d ->
    dom (registers d) = dom DEFAULT_REGISTER_VALUES /\
    Forall (fun r => length r = 6%nat) (fifo_buffer d) /\
    Z.of_nat (length (fifo_buffer d)) <= 32.
Proof.
  split; [apply (device_new_returns OK)|].
  intros d Hreach. destruct (device_reachable_wf OK d Hreach) as [Hd Hr Hl].
  repeat split; assumption.
Qed.

End DeviceQueue.

(** ** The FIFO-data register, the FIFO configuration and the status of
    the device *)

Section DeviceData.
Context `{RM : RegisterMap}.
Hypothesis OK : RegisterMapOK.

(** X22: on a well-formed device a read of the FIFO-data register never
    raises.  With [rd_ptr] the read pointer, it returns 0 and changes
    nothing when the FIFO holds no record number [(rd_ptr // 6) % 32], or
    when the read pointer equals the write pointer and the overflow counter
    is 0; otherwise it returns byte [rd_ptr % 6] of that record and sets the
    read pointer to [(rd_ptr + 1) % 192], and changes nothing else: no
    record leaves the FIFO. *)
Theorem device_fifo_data_read (d : MAX30102Device) (rd_ptr wr_ptr ovf : Z) :
  wf d ->
  registers d !! REG_FIFO_RD_PTR = Some rd_ptr ->
  registers d !! REG_FIFO_WR_PTR = Some wr_ptr ->
  registers d !! REG_OVF_COUNTER = Some ovf ->
  let sample_index := (rd_ptr / 6) mod fifo_size in
  (fifo_buffer d !! Z.to_nat sample_index = None \/
   (rd_ptr = wr_ptr /\ ovf = 0) ->
   read_register REG_FIFO_DATA d = (Ret (Some 0), d)) /\
  (forall record,
     fifo_buffer d !! Z.to_nat sample_index = Some record ->
     ~ (rd_ptr = wr_ptr /\ ovf = 0) ->
     exists value,
       record !! Z.to_nat (rd_ptr mod 6) = Some value /\
       read_register REG_FIFO_DATA d =
         (Ret (Some value),
          with_registers
            (<[REG_FIFO_RD_PTR := (rd_ptr + 1) mod (fifo_size * 6)]>
               (registers d)) d)).
Proof.
  intros Hwf Hrd Hwr Hovf sample_index.
  assert (Hidx : 0 <= sample_index < fifo_size)
    by (apply Z.mod_pos_bound; unfold fifo_size; lia).
  assert (Hbyte : 0 <= rd_ptr mod 6 < 6) by (apply Z.mod_pos_bound; lia).
  assert (Hrun : read_register REG_FIFO_DATA d =
    match fifo_buffer d with
    | [] => (Ret (Some 0), d)
    | _ :: _ =>
      if (rd_ptr =? wr_ptr) && (ovf =? 0) then (Ret (Some 0), d)
      else if sample_index <? Z.of_nat (length (fifo_buffer d)) then
        ((sample ← index (fifo_buffer d) sample_index;
          value ← index sample (rd_ptr mod 6);
          set_reg REG_FIFO_RD_PTR ((rd_ptr + 1) mod (fifo_size * 6));;
          mret (Some value)) : D (option Z)) d
      else (Ret (Some 0), d)
    end).
  { unfold read_register, _read_fifo_data. rewrite Z.eqb_refl.
    unfold get_reg. dunfold.
    destruct (fifo_buffer d) as [|r0 rest] eqn:Hbuf; [reflexivity|].
    rewrite Hrd, Hwr. fold sample_index.
    destruct (rd_ptr =? wr_ptr).
    - rewrite Hovf, andb_true_l. destruct (ovf =? 0); [reflexivity|].
      destruct (sample_index <? Z.of_nat (length (r0 :: rest)));
        [|reflexivity].
      unfold index.
      destruct (py_getitem (r0 :: rest) sample_index) as [sample|];
        [|reflexivity].
      dunfold.
      destruct (py_getitem sample (rd_ptr mod 6)); reflexivity.
    - rewrite andb_false_l.
      destruct (sample_index <? Z.of_nat (length (r0 :: rest)));
        [|reflexivity].
      unfold index.
      destruct (py_getitem (r0 :: rest) sample_index) as [sample|];
        [|reflexivity].
      dunfold.
      destruct (py_getitem sample (rd_ptr mod 6)); reflexivity. }
  split.
  - intros Hzero. rewrite Hrun.
    destruct (fifo_buffer d) as [|r0 rest] eqn:Hbuf; [reflexivity|].
    destruct Hzero as [Hnone | [-> ->]].
    + destruct ((rd_ptr =? wr_ptr) && (ovf =? 0)); [reflexivity|].
      apply lookup_ge_None in Hnone.
      destruct (Z.ltb_spec sample_index (Z.of_nat (length (r0 :: rest))));
        [lia | reflexivity].
    + rewrite !Z.eqb_refl. reflexivity.
  - intros record Hrec Hne. rewrite Hrun.
    pose proof (lookup_lt_Some _ _ _ Hrec) as Hlt.
    assert (H6 : length record = 6%nat).
    { pose proof (wf_records d Hwf) as Hall. rewrite Forall_forall in Hall.
      apply Hall. eapply list_elem_of_lookup_2, Hrec. }
    destruct (lookup_lt_is_Some_2 record (Z.to_nat (rd_ptr mod 6)))
      as [value Hvalue]; [lia|].
    exists value. split; [exact Hvalue|].
    destruct (fifo_buffer d) as [|r0 rest] eqn:Hbuf; [discriminate|].
    assert (Hcond : (rd_ptr =? wr_ptr) && (ovf =? 0) = false).
    { destruct (Z.eqb_spec rd_ptr wr_ptr); [|reflexivity].
      destruct (Z.eqb_spec ovf 0); [|reflexivity].
      exfalso. apply Hne. split; assumption. }
    rewrite Hcond.
    destruct (Z.ltb_spec sample_index (Z.of_nat (length (r0 :: rest))));
      [|lia].
    unfold index, py_getitem.
    destruct (Z.ltb_spec sample_index 0); [lia|]. rewrite Hrec.
    dunfold.
    destruct (Z.ltb_spec (rd_ptr mod 6) 0); [lia|]. rewrite Hvalue.
    reflexivity.
Qed.

(** X23: on the device, a write to the FIFO-config register returns True,
    stores the low byte of the value, and decodes bits 7..5 into
    [averaging] (2 to the power of the field for 0 to 5, and 1 for 6 and
    7) and bit 4 into [fifo_rollover]; the FIFO, the sample count and
    [power_on] keep their values. *)
Theorem device_fifo_config_write (d : MAX30102Device) (value : Z) :
  let average_bits := Z.land (Z.shiftr value 5) 0x07 in
  exists d',
    write_register REG_FIFO_CONFIG value d = (Ret true, d') /\
    registers d' = <[REG_FIFO_CONFIG := Z.land value 0xFF]> (registers d) /\
    averaging d' =
      Some (if average_bits <=? 5 then 2 ^ average_bits else 1) /\
    fifo_rollover d' = Some (Z.testbit value 4) /\
    fifo_buffer d' = fifo_buffer d /\
    sample_count d' = sample_count d /\
    power_on d' = power_on d.
Proof.
  intros average_bits.
  assert (Hin : dict_in REG_FIFO_CONFIG DEFAULT_REGISTER_VALUES = true)
    by (apply dict_in_true, (known_FIFO_CONFIG OK)).
  assert (Hne : (REG_FIFO_CONFIG =? REG_MODE_CONFIG) = false)
    by (apply Z.eqb_neq, (named_neq OK 5 6); done).
  pose proof (averaging_map_decode average_bits (land_3_bits_range _)) as Havg.
  pose proof (py_bool_land_pow2 value 4 ltac:(lia)) as Hroll.
  change (2 ^ 4) with 16 in Hroll.
  unfold write_register, _update_fifo_config. rewrite Hin. simpl negb.
  cbv iota. dunfold. rewrite Hne, Z.eqb_refl.
  eexists. split; [reflexivity|]. simpl.
  split; [reflexivity|].
  split; [fold average_bits; rewrite Havg; reflexivity|].
  split; [rewrite Hroll; reflexivity|].
  split; [reflexivity|]. split; reflexivity.
Qed.

(** X24: on the device, after a mode write without the reset bit,
    [get_status] returns and reports the low three bits of the written
    value as the mode, [power_on] False when bit 7 of the value is set and
    its former value otherwise, and the number of records of the FIFO and
    the sample count as they were before the write. *)
Theorem device_status_after_mode_write (d : MAX30102Device) (value : Z) :
  Z.land value 0x40 = 0 ->
  exists d' report,
    write_register REG_MODE_CONFIG value d = (Ret true, d') /\
    get_status d' = (Ret report, d') /\
    status_mode report = Z.land value 0x07 /\
    status_power_on report =
      (if Z.testbit value 7 then false else power_on d) /\
    status_fifo_samples report = Z.of_nat (length (fifo_buffer d)) /\
    status_sample_count report = sample_count d.
Proof.
  intros Hnoreset.
  assert (Hnr : ~ (REG_MODE_CONFIG = REG_MODE_CONFIG
                   /\ Z.land value 0x40 <> 0))
    by (intros [_ H]; contradiction).
  destruct (device_write_register_run d REG_MODE_CONFIG value
              (known_MODE_CONFIG OK) Hnr)
    as (d' & Hrun & Hregs & Hbuf & Hcount & Hpower).
  assert (Hmode : registers d' !! REG_MODE_CONFIG = Some (Z.land value 0xFF))
    by (rewrite Hregs; apply lookup_insert_eq).
  exists d'. eexists. split; [exact Hrun|].
  split.
  { unfold get_status, get_reg. dunfold. unfold id. rewrite Hmode.
    reflexivity. }
  simpl. split; [|split; [|split]].
  - rewrite <- Z.land_assoc. reflexivity.
  - rewrite Hpower, Z.eqb_refl, andb_true_l. reflexivity.
  - rewrite Hbuf. reflexivity.
  - exact Hcount.
Qed.

End DeviceData.

End DeviceFacts.

(** * What the simulator's registers and FIFO always hold *)

(** Proofs that a method keeps a property: through the binds, branches and
    loops down to the leaves, which [leaf] must solve. *)
Ltac pres_with leaf :=
  repeat first
    [ leaf
    | apply preserves_ret
    | apply preserves_raise
    | apply preserves_gets
    | apply preserves_get_reg
    | apply preserves_index
    | apply preserves_time_sleep
    | apply preserves_float_mul_int
    | apply preserves_bind; [|intros ?]
    | apply preserves_for_each; intros ? ?
    | match goal with
      | |- preserves _ (if ?b then _ else _) => destruct b eqn:?
      | |- preserves _ (match ?x with _ => _ end) => destruct x eqn:?
      | |- preserves _ (let _ := _ in _) => cbv zeta
      end ].

Lemma lor_byte_range (a b : Z) :
  0 <= a <= 255 -> 0 <= b <= 255 -> 0 <= Z.lor a b <= 255.
Proof.
  intros Ha Hb.
  assert (Hmask : forall x, 0 <= x <= 255 -> Z.land x (Z.ones 8) = x).
  { intros x Hx. rewrite Z.land_ones by lia. apply Z.mod_small.
    change (2 ^ 8) with 256. lia. }
  replace (Z.lor a b) with (Z.land (Z.lor a b) (Z.ones 8))
    by (rewrite Z.land_lor_distr_l, (Hmask a Ha), (Hmask b Hb); reflexivity).
  rewrite Z.land_ones by lia.
  pose proof (Z.mod_pos_bound (Z.lor a b) (2 ^ 8) eq_refl) as H.
  change (2 ^ 8) with 256 in *. lia.
Qed.

Lemma mod_pointer_byte (v : Z) : 0 <= v mod (fifo_size * 6) <= 255.
Proof.
  pose proof (Z.mod_pos_bound v (fifo_size * 6) eq_refl) as H.
  unfold fifo_size in *. lia.
Qed.

Lemma byte_cells_insert (m : gmap Z Z) (k v : Z) :
  byte_cells m -> 0 <= v <= 255 -> byte_cells (<[k := v]> m).
Proof.
  intros Hm Hv k' v' Hlook.
  destruct (decide (k = k')) as [->|Hne].
  - rewrite lookup_insert_eq in Hlook. inversion Hlook; subst. exact Hv.
  - rewrite lookup_insert_ne in Hlook by exact Hne. apply (Hm k' v' Hlook).
Qed.

Section Contents.
Context `{RM : RegisterMap}.
Hypothesis OK : RegisterMapOK.

Section Bytes.
Hypothesis default_bytes : byte_cells DEFAULT_REGISTER_VALUES.
Hypothesis mode_byte : 0 <= MODE_SPO2 <= 255.

Lemma bytes_set_reg (k v : Z) : 0 <= v <= 255 -> preserves holds_bytes (set_reg k v).
Proof. intros Hv s Hs. apply byte_cells_insert; assumption. Qed.

Lemma bytes_modify_other (f : I2CProtocolSimulator -> I2CProtocolSimulator) :
  (forall s, registers (f s) = registers s) -> preserves holds_bytes (modify f).
Proof. intros Hf s Hs. unfold holds_bytes. simpl. rewrite Hf. exact Hs. Qed.

Lemma bytes_restore_defaults :
  preserves holds_bytes (modify (with_registers DEFAULT_REGISTER_VALUES)).
Proof. intros s _. exact default_bytes. Qed.

Lemma bytes_or_status (r : Z) :
  preserves holds_bytes (st ← get_reg r; set_reg r (Z.lor st 0x10)).
Proof.
  intros s Hs. rewrite bind_run. unfold get_reg.
  destruct (registers s !! r) as [st|] eqn:Hst; [|exact Hs].
  apply byte_cells_insert; [exact Hs|].
  apply lor_byte_range; [apply (Hs r st Hst) | lia].
Qed.

Lemma bytes_and_status (r : Z) :
  preserves holds_bytes (st ← get_reg r; set_reg r (Z.land st (Z.lnot 0x10))).
Proof.
  intros s Hs. rewrite bind_run. unfold get_reg.
  destruct (registers s !! r) as [st|] eqn:Hst; [|exact Hs].
  apply byte_cells_insert; [exact Hs|].
  rewrite Z.land_comm. apply land_byte_range, (Hs r st Hst).
Qed.

Ltac bytes_leaf :=
  first
    [ apply bytes_or_status
    | apply bytes_and_status
    | apply bytes_restore_defaults
    | apply bytes_set_reg;
      first [ apply land_byte_range; lia | apply mod_pointer_byte
            | exact mode_byte | lia ]
    | apply bytes_modify_other; reflexivity ].

Lemma bytes_with_errors s n : holds_bytes s -> holds_bytes (with_errors n s).
Proof. intros H. exact H. Qed.

Lemma bytes_after (c : call) s : holds_bytes s -> holds_bytes (after c s).
Proof.
  intros Hs. destruct c; simpl.
  - unfold write_register.
    destruct (negb (i2c_bus_available s)); [exact Hs|].
    destruct (negb (dict_in register (registers s))); [exact Hs|].
    apply preserves_try_except; [apply bytes_with_errors | | exact Hs].
    unfold _handle_mode_config_write, _handle_device_reset,
      _handle_fifo_config_write, _handle_fifo_write_pointer,
      _handle_fifo_read_pointer, _handle_spo2_config_write.
    pres_with bytes_leaf.
  - unfold read_register.
    destruct (negb (i2c_bus_available s)); [exact Hs|].
    destruct (negb (dict_in register (registers s))); [exact Hs|].
    apply preserves_try_except; [apply bytes_with_errors | | exact Hs].
    unfold _handle_fifo_data_read, _handle_interrupt_status_read.
    pres_with bytes_leaf.
  - unfold read_registers_burst.
    destruct (negb (i2c_bus_available s)); [exact Hs|].
    apply preserves_try_except; [apply bytes_with_errors | | exact Hs].
    unfold burst_read_step, _handle_fifo_data_read.
    pres_with bytes_leaf.
  - unfold write_registers_burst.
    destruct (negb (i2c_bus_available s)); [exact Hs|].
    apply preserves_try_except; [apply bytes_with_errors | | exact Hs].
    unfold burst_write_step, _handle_mode_config_write, _handle_device_reset,
      _handle_fifo_config_write.
    pres_with bytes_leaf.
  - revert s Hs.
    change (preserves holds_bytes (push_sample_to_fifo red_sample ir_sample)).
    unfold push_sample_to_fifo, _update_fifo_pointers.
    pres_with bytes_leaf.
  - revert s Hs. change (preserves holds_bytes (read_fifo_samples sample_count)).
    unfold read_fifo_samples, read_fifo_step, _update_fifo_pointers.
    pres_with bytes_leaf.
  - revert s Hs. change (preserves holds_bytes get_device_status).
    unfold get_device_status. pres_with fail.
  - exact Hs.
  - exact Hs.
Qed.

Lemma bytes_new (addr : Z) : holds_bytes (new addr).
Proof.
  unfold new.
  assert (Hfresh : holds_bytes (fresh addr)) by exact default_bytes.
  revert Hfresh. generalize (fresh addr). intros s Hs.
  revert s Hs. change (preserves holds_bytes _initialize_device).
  unfold _initialize_device. pres_with bytes_leaf.
Qed.

Lemma reachable_bytes s : reachable s -> byte_cells (registers s).
Proof.
  induction 1 as [addr | c s Hreach IH].
  - apply bytes_new.
  - apply bytes_after, IH.
Qed.

End Bytes.

Lemma packed_modify_other (f : I2CProtocolSimulator -> I2CProtocolSimulator) :
  (forall s, fifo_buffer (f s) = fifo_buffer s) ->
  preserves (fun s => packed_records (fifo_buffer s)) (modify f).
Proof. intros Hf s Hs. simpl. rewrite Hf. exact Hs. Qed.

Lemma packed_clear :
  preserves (fun s => packed_records (fifo_buffer s))
            (modify (with_fifo_buffer [])).
Proof. intros s _. constructor. Qed.

Ltac packed_leaf :=
  first [ apply packed_clear | apply packed_modify_other; reflexivity ].

Lemma packed_with_errors s n :
  packed_records (fifo_buffer s) ->
  packed_records (fifo_buffer (with_errors n s)).
Proof. intros H. exact H. Qed.

Lemma packed_after (c : call) s :
  wf s ->
  packed_records (fifo_buffer s) ->
  packed_records (fifo_buffer (after c s)).
Proof.
  intros Hwf Hs. destruct c; simpl.
  - unfold write_register.
    destruct (negb (i2c_bus_available s)); [exact Hs|].
    destruct (negb (dict_in register (registers s))); [exact Hs|].
    apply (preserves_try_except (fun s => packed_records (fifo_buffer s)));
      [apply packed_with_errors | | exact Hs].
    unfold _handle_mode_config_write, _handle_device_reset,
      _handle_fifo_config_write, _handle_fifo_write_pointer,
      _handle_fifo_read_pointer, _handle_spo2_config_write, set_reg.
    pres_with packed_leaf.
  - unfold read_register.
    destruct (negb (i2c_bus_available s)); [exact Hs|].
    destruct (negb (dict_in register (registers s))); [exact Hs|].
    apply (preserves_try_except (fun s => packed_records (fifo_buffer s)));
      [apply packed_with_errors | | exact Hs].
    unfold _handle_fifo_data_read, _handle_interrupt_status_read, set_reg.
    pres_with packed_leaf.
  - unfold read_registers_burst.
    destruct (negb (i2c_bus_available s)); [exact Hs|].
    apply (preserves_try_except (fun s => packed_records (fifo_buffer s)));
      [apply packed_with_errors | | exact Hs].
    unfold burst_read_step, _handle_fifo_data_read, set_reg.
    pres_with packed_leaf.
  - unfold write_registers_burst.
    destruct (negb (i2c_bus_available s)); [exact Hs|].
    apply (preserves_try_except (fun s => packed_records (fifo_buffer s)));
      [apply packed_with_errors | | exact Hs].
    unfold burst_write_step, _handle_mode_config_write, _handle_device_reset,
      _handle_fifo_config_write, set_reg.
    pres_with packed_leaf.
  - destruct (wf_lookup s _ Hwf (known_OVF_COUNTER OK)) as [ovf Hovf].
    destruct (push_sample_to_fifo_spec OK s red_sample ir_sample ovf Hwf Hovf)
      as (s' & Hrun & _ & Hbuf & _).
    rewrite Hrun. simpl. rewrite Hbuf.
    apply Forall_app. split.
    + destruct (_ <=? _); [|exact Hs].
      destruct (fifo_buffer s); [constructor | by inversion Hs].
    + constructor; [eexists _, _; reflexivity | constructor].
  - destruct (read_fifo_samples_spec OK s sample_count Hwf)
      as (s' & Hrun & _ & Hbuf).
    rewrite Hrun. simpl. rewrite Hbuf. apply Forall_drop, Hs.
  - revert s Hwf Hs.
    cut (preserves (fun s => packed_records (fifo_buffer s)) get_device_status);
      [intros Hp s _ Hs; exact (Hp s Hs)|].
    unfold get_device_status. pres_with fail.
  - exact Hs.
  - exact Hs.
Qed.

Lemma reachable_packed s : reachable s -> packed_records (fifo_buffer s).
Proof.
  induction 1 as [addr | c s Hreach IH].
  - constructor.
  - apply packed_after; [apply (reachable_wf OK), Hreach | exact IH].
Qed.

(** X17: in every state the simulator can reach, the register dictionary
    has exactly the keys of the default table, every FIFO record has 6
    bytes, the FIFO holds at most 32 records, and the communication delay
    is not negative. *)
Theorem simulator_reachable_invariant (s : I2CProtocolSimulator) :
  reachable s ->
  dom (registers s) = dom DEFAULT_REGISTER_VALUES /\
  Forall (fun r => length r = 6%nat) (fifo_buffer s) /\
  Z.of_nat (length (fifo_buffer s)) <= 32 /\
  (0 <= communication_delay s)%Q.
Proof.
  intros Hreach. destruct (reachable_wf OK s Hreach) as [Hd Hr Hl Hq].
  repeat split; assumption.
Qed.

(** X18: when the default table holds bytes and [MODE_SPO2] is a byte,
    every register holds a byte, a value in [0, 255], in every state the
    simulator can reach. *)
Theorem simulator_registers_hold_bytes (s : I2CProtocolSimulator) (k v : Z) :
  byte_cells DEFAULT_REGISTER_VALUES ->
  0 <= MODE_SPO2 <= 255 ->
  reachable s ->
  registers s !! k = Some v ->
  0 <= v <= 255.
Proof.
  intros Hdef Hmode Hreach Hv.
  exact (reachable_bytes Hdef Hmode s Hreach k v Hv).
Qed.

(** X19: in every state the simulator can reach, every FIFO record is the
    packing of a pair of samples, and [read_fifo_samples] returns, for every
    count, a list of pairs whose two components lie in [0, 2^18 - 1]. *)
Theorem simulator_samples_are_18_bit (s : I2CProtocolSimulator)
    (sample_count : Z) :
  reachable s ->
  packed_records (fifo_buffer s) /\
  exists samples s',
    read_fifo_samples sample_count s = (Ret samples, s') /\
    Forall (fun p => 0 <= p.1 < 2 ^ 18 /\ 0 <= p.2 < 2 ^ 18) samples.
Proof.
  intros Hreach.
  pose proof (reachable_packed s Hreach) as Hpacked.
  split; [exact Hpacked|].
  destruct (read_fifo_samples_spec OK s sample_count
              (reachable_wf OK s Hreach)) as (s' & Hrun & _).
  eexists _, s'. split; [exact Hrun|].
  unfold packed_records in Hpacked. clear Hrun.
  match goal with
  | |- Forall _ (map _ (take ?k _)) =>
    pose proof (Forall_take _ k _ Hpacked) as Htake
  end.
  induction Htake as [|r l (red & ir & ->) _ IH]; simpl; constructor.
  - rewrite unpack_pack_sample. simpl. split; apply land_18_bits.
  - exact IH.
Qed.

End Contents.

(** * Reading the FIFO byte by byte, and what the FIFO methods leave alone *)

Section ByteDrain.
Context `{RM : RegisterMap}.
Hypothesis OK : RegisterMapOK.



(** X21: [push_sample_to_fifo] and [read_fifo_samples] are not bus
    operations: whether they return or raise, they leave the bus flag, the
    delay, the three operation counters and the decoded attributes as they
    were. *)
Theorem fifo_methods_leave_bus_state (s : I2CProtocolSimulator)
    (red_sample ir_sample sample_count : Z) :
  let same (s' : I2CProtocolSimulator) :=
    i2c_bus_available s' = i2c_bus_available s /\
    communication_delay s' = communication_delay s /\
    read_operations s' = read_operations s /\
    write_operations s' = write_operations s /\
    errors s' = errors s /\
    sample_rate s' = sample_rate s /\
    averaging_samples s' = averaging_samples s /\
    fifo_rollover s' = fifo_rollover s in
  same (push_sample_to_fifo red_sample ir_sample s).2 /\
  same (read_fifo_samples sample_count s).2.
Proof.
  intros same.
  assert (Hleaf : forall f : I2CProtocolSimulator -> I2CProtocolSimulator,
    (forall s0, f s0 = with_fifo_buffer (fifo_buffer (f s0))
                         (with_registers (registers (f s0)) s0)) ->
    preserves same (modify f)).
  { intros f Hf s0 Hs0. simpl. rewrite Hf. exact Hs0. }
  assert (Hsame : same s) by (unfold same; repeat split).
  split.
  - cut (preserves same (push_sample_to_fifo red_sample ir_sample));
      [intros Hp; exact (Hp s Hsame)|].
    unfold push_sample_to_fifo, _update_fifo_pointers, set_reg.
    pres_with ltac:(apply Hleaf; intros [? ? ? ? ? ? ? ? ? ? ?]; reflexivity).
  - cut (preserves same (read_fifo_samples sample_count));
      [intros Hp; exact (Hp s Hsame)|].
    unfold read_fifo_samples, read_fifo_step, _update_fifo_pointers, set_reg.
    pres_with ltac:(apply Hleaf; intros [? ? ? ? ? ? ? ? ? ? ?]; reflexivity).
Qed.

End ByteDrain.


(** * The further properties on the chip's register map *)

Lemma chip_default_table_bytes : byte_cells DEFAULT_REGISTER_VALUES.
Proof.
  apply (bool_decide_unpack (map_Forall (fun _ v => 0 <= v <= 255) default_table)).
  vm_compute. reflexivity.
Qed.











Lemma simulator_reachable_invariant_witness :
  let s := after (CallPushSampleToFifo 10000 9500) i2c in
  Z.of_nat (length (fifo_buffer s)) <= 32.
Proof.
  intros s.
  assert (Hreach : reachable s) by apply reachable_after, reachable_new.
  exact (proj1 (proj2 (proj2
            (simulator_reachable_invariant chip_register_map_ok s Hreach)))).
Defined.

Lemma simulator_registers_hold_bytes_witness :
  let s := after (CallWriteRegister REG_LED1_PA 0x1FF) i2c in
  registers s !! REG_LED1_PA = Some 0xFF /\ 0 <= 0xFF <= 255.
Proof.
  intros s.
  assert (Hreach : reachable s) by apply reachable_after, reachable_new.
  assert (Hv : registers s !! REG_LED1_PA = Some 0xFF) by reflexivity.
  split; [exact Hv|].
  apply (simulator_registers_hold_bytes s REG_LED1_PA 0xFF
           chip_default_table_bytes ltac:(simpl; lia) Hreach Hv).
Defined.

Lemma simulator_samples_are_18_bit_witness :
  let s := after (CallPushSampleToFifo 0x7FFFF (-1)) i2c in
  exists samples s',
    read_fifo_samples 1 s = (Ret samples, s') /\
    Forall (fun p => 0 <= p.1 < 2 ^ 18 /\ 0 <= p.2 < 2 ^ 18) samples.
Proof.
  intros s.
  assert (Hreach : reachable s) by apply reachable_after, reachable_new.
  exact (proj2 (simulator_samples_are_18_bit chip_register_map_ok s 1 Hreach)).
Defined.


Module DeviceWitnesses.
Import Device DeviceFacts.

(** [MAX30102Device()] *)
Lemma chip_device_wf : wf new.2.
Proof. exact (proj2 (device_new_returns chip_register_map_ok)). Qed.

(** The write and the read of [test_register_write_read]. *)
Lemma device_write_then_read_witness :
  exists d',
    write_register REG_LED1_PA 0x20 new.2 = (Ret true, d') /\
    read_register REG_LED1_PA d' = (Ret (Some 0x20), d').
Proof.
  destruct (proj1 (device_write_then_read new.2 REG_LED1_PA 0x20
                     chip_device_wf ltac:(discriminate)))
    as (d' & Hw & _ & Hr).
  - apply dict_in_true. reflexivity.
  - intros [H _]. discriminate H.
  - exists d'. split; [exact Hw | exact Hr].
Defined.

(** The scenario of [test_power_management]: shutdown, then a write of
    the SpO2 mode; the test's [assert device.power_on == True] meets
    False. *)
Lemma device_power_never_returns_witness :
  let d := (write_register REG_MODE_CONFIG 0x80 new.2).2 in
  power_on d = false /\
  power_on (after_all [CallWriteRegister REG_MODE_CONFIG MODE_SPO2] d) = false.
Proof.
  intros d.
  assert (Hoff : power_on d = false)
    by exact (proj1 (device_power_never_returns chip_register_map_ok)
                new.2 0x80 eq_refl eq_refl).
  split; [exact Hoff|].
  exact (proj2 (device_power_never_returns chip_register_map_ok) _ d Hoff).
Defined.

Lemma device_reset_witness :
  let d := (push_sample_to_fifo 10000 9500 new.2).2 in
  exists d',
    write_register REG_MODE_CONFIG 0x40 d = (Ret true, d') /\
    fifo_buffer d' = [] /\
    sample_count d' = 0 /\
    reset_pending d' = true.
Proof.
  intros d.
  assert (Hwf : wf d)
    by apply (device_wf_push_sample_to_fifo chip_register_map_ok),
             chip_device_wf.
  destruct (device_reset chip_register_map_ok d 0x40 Hwf)
    as (d' & st & _ & Hw & _ & Hb & Hc & Hp & _).
  - discriminate.
  - exists d'. repeat split; assumption.
Defined.

(** One configuration word of [test_sample_rate_calculation]. *)
Lemma device_sample_rate_after_write_witness :
  exists d',
    write_register REG_SPO2_CONFIG 0x37 new.2 = (Ret true, d') /\
    get_sample_rate d' = (Ret 1000, d').
Proof.
  exact (device_sample_rate_after_write chip_register_map_ok new.2 0x37
           chip_device_wf).
Defined.

(** The 40 pushes of [test_fifo_operations]. *)
Lemma device_push_all_keeps_newest_witness :
  let records := map (fun i => (10000 + i, 9500 + i)) (seqZ 0 40) in
  exists d',
    push_all records new.2 = (Ret tt, d') /\
    length (fifo_buffer d') = 32%nat /\
    sample_count d' = 40 /\
    registers d' !! REG_OVF_COUNTER = Some 8.
Proof.
  intros records.
  destruct (device_push_all_keeps_newest chip_register_map_ok records new.2
              chip_device_wf) as (d' & Hrun & _ & Hbuf & Hsc & Hovf).
  exists d'. split; [exact Hrun|]. split; [|split].
  - rewrite Hbuf. reflexivity.
  - exact Hsc.
  - apply (Hovf 0 eq_refl). lia.
Defined.

Lemma device_read_fifo_burst_spec_witness :
  exists d1 d2,
    push_sample_to_fifo 10000 9500 new.2 = (Ret tt, d1) /\
    read_fifo_burst 1 d1 = (Ret [0; 39; 16; 0; 37; 28], d2) /\
    fifo_buffer d2 = [].
Proof.
  exact (proj2 (device_read_fifo_burst_spec chip_register_map_ok new.2 0
                  chip_device_wf) 10000 9500 eq_refl).
Defined.

Lemma device_reachable_invariant_witness :
  let d := after (CallPushSampleToFifo 10000 9500) new.2 in
  Z.of_nat (length (fifo_buffer d)) <= 32.
Proof.
  intros d.
  assert (Hnew : new.1 = Ret tt)
    by exact (proj1 (device_reachable_invariant chip_register_map_ok)).
  assert (Hreach : reachable d) by apply reachable_after, reachable_new, Hnew.
  exact (proj2 (proj2 (proj2 (device_reachable_invariant chip_register_map_ok)
                         d Hreach))).
Defined.

(** One push, then a read of the FIFO-data register: the first byte of
    the record, and the read pointer at 1. *)
Lemma device_fifo_data_read_witness :
  let d := (push_sample_to_fifo 0x2ABCD 0x1FFFF new.2).2 in
  read_register REG_FIFO_DATA d =
    (Ret (Some 2),
     with_registers (<[REG_FIFO_RD_PTR := 1]> (registers d)) d).
Proof.
  intros d.
  assert (Hwf : wf d)
    by apply (device_wf_push_sample_to_fifo chip_register_map_ok),
             chip_device_wf.
  destruct (proj2 (device_fifo_data_read d 0 6 0 Hwf eq_refl eq_refl eq_refl)
              [2; 0xAB; 0xCD; 1; 0xFF; 0xFF] eq_refl)
    as (value & Hvalue & Hread).
  - intros [H _]. discriminate H.
  - injection Hvalue as <-. exact Hread.
Defined.

(** Averaging field 2 and the rollover bit. *)
Lemma device_fifo_config_write_witness :
  exists d',
    write_register REG_FIFO_CONFIG 0x50 new.2 = (Ret true, d') /\
    averaging d' = Some 4 /\
    fifo_rollover d' = Some true.
Proof.
  destruct (device_fifo_config_write chip_register_map_ok new.2 0x50)
    as (d' & Hw & _ & Ha & Hr & _).
  exists d'. split; [exact Hw|]. split; [exact Ha | exact Hr].
Defined.

(** Shutdown with mode 3. *)
Lemma device_status_after_mode_write_witness :
  exists d' report,
    write_register REG_MODE_CONFIG 0x83 new.2 = (Ret true, d') /\
    get_status d' = (Ret report, d') /\
    status_mode report = 3 /\
    status_power_on report = false.
Proof.
  destruct (device_status_after_mode_write chip_register_map_ok new.2 0x83
              eq_refl) as (d' & report & Hw & Hst & Hm & Hp & _).
  exists d', report. repeat split; assumption.
Defined.

End DeviceWitnesses.
